(** * Brand-mention checker: the check workflow and the CSV exporter

    A shallow embedding of [src/app/page.tsx] (the component [Home]): the
    handler [runCheck], the helper [escapeCSV] and the text built by
    [downloadCSV], together with the part of the JavaScript runtime they
    rely on (strings as UTF-16 code units, JSON values, truthiness,
    nullish coalescing, [String(...)], promises that resolve or reject). *)

From Stdlib Require Import List ZArith NArith Bool Lia.
From Stdlib Require Import Ascii String DecimalString.
Import ListNotations.

Set Implicit Arguments.

(** ** Strings

    A JavaScript string is a sequence of UTF-16 code units.  Literals of the
    source are plain ASCII and are written with [lit]. *)

Definition jsstring : Type := list N.

Definition lit (s : string) : jsstring :=
  map N_of_ascii (list_ascii_of_string s).

Definition QUOTE : N := 34.   (* the double-quote character *)
Definition COMMA : N := 44.
Definition LF : N := 10.

Fixpoint str_eqb (a b : jsstring) : bool :=
  match a, b with
  | [], [] => true
  | x :: a', y :: b' => N.eqb x y && str_eqb a' b'
  | _, _ => false
  end.

(** White space and line terminators, the code units [String.prototype.trim]
    strips from both ends. *)
Definition is_white_space (c : N) : bool :=
  (N.leb 9 c && N.leb c 13)               (* TAB LF VT FF CR *)
  || N.eqb c 32                           (* SPACE *)
  || N.eqb c 160                          (* NO-BREAK SPACE *)
  || N.eqb c 5760                         (* U+1680 *)
  || (N.leb 8192 c && N.leb c 8202)       (* U+2000 .. U+200A *)
  || N.eqb c 8232 || N.eqb c 8233         (* U+2028, U+2029 *)
  || N.eqb c 8239 || N.eqb c 8287         (* U+202F, U+205F *)
  || N.eqb c 12288                        (* U+3000 *)
  || N.eqb c 65279.                       (* U+FEFF *)

Fixpoint trimStart (s : jsstring) : jsstring :=
  match s with
  | c :: s' => if is_white_space c then trimStart s' else s
  | [] => []
  end.

Definition trim (s : jsstring) : jsstring :=
  rev (trimStart (rev (trimStart s))).

(** The global replace of [escapeCSV]: every double-quote character of the
    string becomes two. *)
Fixpoint replace_quotes (s : jsstring) : jsstring :=
  match s with
  | [] => []
  | c :: s' =>
      if N.eqb c QUOTE then QUOTE :: QUOTE :: replace_quotes s'
      else c :: replace_quotes s'
  end.

(** [Array.prototype.join] on an array of strings. *)
Fixpoint join (sep : jsstring) (l : list jsstring) : jsstring :=
  match l with
  | [] => []
  | [x] => x
  | x :: rest => x ++ sep ++ join sep rest
  end.

(** ** Values

    The values the handler sees at run time: what [JSON.parse] can build,
    plus [undefined].  Numbers are the integers (the interface documents
    [position] as an ordinal, and an HTTP status is one); [String] of an
    integer is its decimal numeral, as it is for every integer below 10^21
    in magnitude.  Fractions and the exponent form of larger numbers are
    outside the model.  An object is the list of its own properties. *)

#[warnings="-register-all"]
Inductive JSValue : Type :=
| VUndefined
| VNull
| VBool (b : bool)
| VNum (n : Z)
| VStr (s : jsstring)
| VArr (elems : list JSValue)
| VObj (props : list (jsstring * JSValue)).

Definition number_to_string (n : Z) : jsstring :=
  lit (NilZero.string_of_int (Z.to_int n)).

(** [Boolean(v)]. *)
Definition ToBoolean (v : JSValue) : bool :=
  match v with
  | VUndefined | VNull => false
  | VBool b => b
  | VNum n => negb (Z.eqb n 0)
  | VStr s => match s with [] => false | _ => true end
  | VArr _ | VObj _ => true
  end.

Definition is_nullish (v : JSValue) : bool :=
  match v with
  | VUndefined | VNull => true
  | _ => false
  end.

(** [a ?? b]. *)
Definition nullish_or (a b : JSValue) : JSValue :=
  if is_nullish a then b else a.

Fixpoint own_property (props : list (jsstring * JSValue)) (key : jsstring)
  : option JSValue :=
  match props with
  | [] => None
  | (k, v) :: rest => if str_eqb k key then Some v else own_property rest key
  end.

(** ** Exceptions

    A thrown value is either a value handed over by the environment (the
    reason a promise was rejected with) or a [TypeError] raised by the
    engine.  The text of an engine error differs from engine to engine and
    is a parameter of the environment. *)

Inductive TypeErrorCause : Type :=
| NullRead (prop : jsstring)      (* reading a property of null or undefined *)
| NotPrimitive.                   (* an object that has no string conversion *)

Inductive Exn : Type :=
| ExnValue (v : JSValue)
| ExnTypeError (cause : TypeErrorCause).

Inductive Outcome (A : Type) : Type :=
| Normal (a : A)
| Abrupt (e : Exn).

Arguments Normal {A} a.
Arguments Abrupt {A} e.

(** [v.key] on a value that is neither [null] nor [undefined], for the
    property names the handler reads ([error], [mentioned], [position],
    [message]): none of them is found on the prototype of a primitive, an
    array or a plain object, so the read gives the own property of an object
    and [undefined] otherwise. *)
Definition property (v : JSValue) (key : jsstring) : JSValue :=
  match v with
  | VObj props =>
      match own_property props key with
      | Some x => x
      | None => VUndefined
      end
  | _ => VUndefined
  end.

(** [v.key]: reading from [null] or [undefined] throws. *)
Definition get (v : JSValue) (key : jsstring) : Outcome JSValue :=
  if is_nullish v then Abrupt (ExnTypeError (NullRead key))
  else Normal (property v key).

(** [String(v)].  An array joins its elements with commas, a hole-like
    element ([null], [undefined]) printing as nothing; a plain object prints
    as [[object Object]] unless an own [toString] property (never callable in
    parsed JSON) shadows the inherited method, in which case the conversion
    throws. *)
Fixpoint ToString (v : JSValue) : Outcome jsstring :=
  match v with
  | VUndefined => Normal (lit "undefined")
  | VNull => Normal (lit "null")
  | VBool true => Normal (lit "true")
  | VBool false => Normal (lit "false")
  | VNum n => Normal (number_to_string n)
  | VStr s => Normal s
  | VArr elems =>
      let elem x := if is_nullish x then Normal [] else ToString x in
      (fix join_elems (l : list JSValue) : Outcome jsstring :=
         match l with
         | [] => Normal []
         | x :: rest =>
             match elem x with
             | Abrupt e => Abrupt e
             | Normal sx =>
                 match rest with
                 | [] => Normal sx
                 | _ :: _ =>
                     match join_elems rest with
                     | Abrupt e => Abrupt e
                     | Normal sr => Normal (sx ++ COMMA :: sr)
                     end
                 end
             end
         end) elems
  | VObj props =>
      match own_property props (lit "toString") with
      | Some _ => Abrupt (ExnTypeError NotPrimitive)
      | None => Normal (lit "[object Object]")
      end
  end.

(** ** The ledger entry: [interface Result] *)

Record Result : Type := {
  prompt : jsstring;
  mentioned : bool;
  position : JSValue;     (* [number | null]; whatever the backend sent *)
  error : JSValue         (* [string], or [undefined] when absent *)
}.

(** ** The component state: the five [useState] cells of [Home] *)

Module State.

Record t : Type := {
  prompt : jsstring;
  brand : jsstring;
  results : list Result;
  error : JSValue;
  loading : bool
}.

End State.

(** ** Effects

    A run of the handler calls state setters and [fetch], in order.  Each
    call is recorded; [reduce] replays the setter calls on a state, a
    functional update of [results] being applied to the ledger of that
    moment.  A [Fetch] records the URL, the method and the two fields of
    the object whose JSON text is the request body. *)

Inductive Action : Type :=
| SetError (v : JSValue)
| SetLoading (b : bool)
| SetResults (update : list Result -> list Result)
| Fetch (url method : jsstring) (body_prompt body_brand : jsstring).

Definition step (st : State.t) (a : Action) : State.t :=
  match a with
  | SetError v =>
      {| State.prompt := State.prompt st; State.brand := State.brand st;
         State.results := State.results st; State.error := v;
         State.loading := State.loading st |}
  | SetLoading b =>
      {| State.prompt := State.prompt st; State.brand := State.brand st;
         State.results := State.results st; State.error := State.error st;
         State.loading := b |}
  | SetResults update =>
      {| State.prompt := State.prompt st; State.brand := State.brand st;
         State.results := update (State.results st);
         State.error := State.error st; State.loading := State.loading st |}
  | Fetch _ _ _ _ => st
  end.

Definition reduce (st : State.t) (trace : list Action) : State.t :=
  fold_left step trace st.

(** The handler monad: the calls made so far, and how the computation
    ended. *)
Definition M (A : Type) : Type := (list Action * Outcome A)%type.

Definition ret {A} (a : A) : M A := ([], Normal a).

Definition throw {A} (e : Exn) : M A := ([], Abrupt e).

Definition bind {A B} (m : M A) (k : A -> M B) : M B :=
  match m with
  | (t, Normal a) => let (t', r) := k a in (t ++ t', r)
  | (t, Abrupt e) => (t, Abrupt e)
  end.

Definition call (a : Action) : M unit := ([a], Normal tt).

Definition lift {A} (o : Outcome A) : M A := ([], o).

Declare Scope handler_scope.
Delimit Scope handler_scope with handler.
Notation "x <- c ;; k" := (bind c (fun x => k))
  (at level 61, c at next level, right associativity) : handler_scope.
Notation "c ;; k" := (bind c (fun _ => k))
  (at level 61, right associativity) : handler_scope.
Local Open Scope handler_scope.

(** [try { body } catch (err) { handler } finally { cleanup }]; the
    [finally] block of the source ends normally, so the outcome is the one
    of the body or of the handler. *)
Definition try_catch_finally {A} (body : M A) (handler : Exn -> M A)
  (cleanup : M unit) : M A :=
  let caught :=
    match body with
    | (t, Normal a) => (t, Normal a)
    | (t, Abrupt e) => let (t', r) := handler e in (t ++ t', r)
    end in
  match caught, cleanup with
  | (t, r), (t', Normal _) => (t ++ t', r)
  | (t, _), (t', Abrupt e) => (t ++ t', Abrupt e)
  end.

Definition setError (v : JSValue) : M unit := call (SetError v).
Definition setLoading (b : bool) : M unit := call (SetLoading b).
Definition setResults (update : list Result -> list Result) : M unit :=
  call (SetResults update).

(** ** The environment of one run *)

Inductive JsonOutcome : Type :=
| JsonRejects (reason : JSValue)     (* the body is not JSON *)
| JsonResolves (data : JSValue).

Record Response : Type := {
  status : Z;
  body : JsonOutcome
}.

(** [res.ok]: the status is in the range 200-299. *)
Definition ok (res : Response) : bool :=
  Z.leb 200 (status res) && Z.leb (status res) 299.

Inductive FetchOutcome : Type :=
| FetchRejects (reason : JSValue)    (* the endpoint was not reached *)
| FetchResolves (res : Response).

Record Env : Type := {
  NEXT_PUBLIC_BACKEND_URL : option jsstring;
  network : FetchOutcome;
  engine_message : TypeErrorCause -> jsstring
}.

Definition fetch (env : Env) (url method body_prompt body_brand : jsstring)
  : M Response :=
  call (Fetch url method body_prompt body_brand) ;;
  match network env with
  | FetchRejects reason => throw (ExnValue reason)
  | FetchResolves res => ret res
  end.

Definition json (res : Response) : M JSValue :=
  match body res with
  | JsonRejects reason => throw (ExnValue reason)
  | JsonResolves data => ret data
  end.

(** [(err as Error)?.message]. *)
Definition optional_message (env : Env) (err : Exn) : JSValue :=
  match err with
  | ExnTypeError cause => VStr (engine_message env cause)
  | ExnValue v =>
      if is_nullish v then VUndefined
      else match get v (lit "message") with
           | Normal m => m
           | Abrupt _ => VUndefined
           end
  end.

Definition INVALID_INPUT : jsstring :=
  lit "Please enter both a prompt and a brand name.".

Definition CONNECTION_FAILURE : jsstring :=
  lit "Unable to connect to backend. Make sure it's running on port 3001.".

Definition status_message (code : Z) : jsstring :=
  lit "Backend returned status " ++ number_to_string code.

Definition backend (env : Env) : jsstring :=
  match NEXT_PUBLIC_BACKEND_URL env with
  | Some (c :: url) => c :: url
  | _ => lit "http://localhost:3001"
  end.

Definition is_empty (s : jsstring) : bool :=
  match s with [] => true | _ => false end.

(** The object literal of lines 46-51. *)
Definition item (prompt : jsstring) (data : JSValue) : M Result :=
  m <- lift (get data (lit "mentioned")) ;;
  p <- lift (get data (lit "position")) ;;
  e <- lift (get data (lit "error")) ;;
  ret {| prompt := prompt;
         mentioned := ToBoolean m;
         position := nullish_or p VNull;
         error := e |}.

Definition runCheck (env : Env) (st : State.t) : M unit :=
  let prompt := State.prompt st in
  let brand := State.brand st in
  setError (VStr []) ;;
  if is_empty (trim prompt) || is_empty (trim brand) then
    setError (VStr INVALID_INPUT)
  else
    setLoading true ;;
    try_catch_finally
      (res <- fetch env (backend env ++ lit "/api/check") (lit "POST")
                prompt brand ;;
       data <- json res ;;
       (if negb (ok res) then
          e <- lift (get data (lit "error")) ;;
          setError (nullish_or e (VStr (status_message (status res))))
        else ret tt) ;;
       it <- item prompt data ;;
       setResults (fun prev => it :: prev) ;;
       e <- lift (get data (lit "error")) ;;
       if ToBoolean e then setError e else ret tt)
      (fun err =>
         setError (nullish_or (optional_message env err)
                     (VStr CONNECTION_FAILURE)))
      (setLoading false).

(** The calls of a run, and the state once they have been applied. *)
Definition trace (env : Env) (st : State.t) : list Action :=
  fst (runCheck env st).

Definition after (env : Env) (st : State.t) : State.t :=
  reduce st (trace env st).

(** ** The exporter *)

Definition and_then {A B} (o : Outcome A) (k : A -> Outcome B) : Outcome B :=
  match o with
  | Normal a => k a
  | Abrupt e => Abrupt e
  end.

Definition escapeCSV (value : JSValue) : Outcome jsstring :=
  match value with
  | VNull | VUndefined => Normal []
  | _ =>
      and_then (ToString value) (fun str =>
      let escaped := replace_quotes str in
      Normal (QUOTE :: escaped ++ [QUOTE]))
  end.

(** The template literal that [downloadCSV] maps over the ledger. *)
Definition row (r : Result) : Outcome jsstring :=
  and_then (escapeCSV (VStr (prompt r))) (fun f1 =>
  and_then (escapeCSV (VBool (mentioned r))) (fun f2 =>
  and_then (escapeCSV (position r)) (fun f3 =>
  Normal (f1 ++ COMMA :: f2 ++ COMMA :: f3)))).

Fixpoint map_rows (results : list Result) : Outcome (list jsstring) :=
  match results with
  | [] => Normal []
  | r :: rest =>
      and_then (row r) (fun x =>
      and_then (map_rows rest) (fun xs => Normal (x :: xs)))
  end.

Definition header : jsstring :=
  join [COMMA] [lit "prompt"; lit "mentioned"; lit "position"] ++ [LF].

(** The text [downloadCSV] hands to the [Blob]. *)
Definition downloadCSV (results : list Result) : Outcome jsstring :=
  and_then (map_rows results) (fun rows =>
  Normal (header ++ join [LF] rows)).

(** ** Reading the export back

    Two readers of the exported text.  [split_on] is the plain split of a
    string at every occurrence of a separator.  [read_csv] reads quoted
    CSV: inside a quoted field a comma or a line feed is data and a doubled
    quote stands for one quote; outside, a comma ends the field and a line
    feed ends the record. *)

Fixpoint split_on (sep : N) (s : jsstring) : list jsstring :=
  match s with
  | [] => [[]]
  | c :: s' =>
      if N.eqb c sep then [] :: split_on sep s'
      else match split_on sep s' with
           | l :: ls => (c :: l) :: ls
           | [] => [[c]]
           end
  end.

Inductive Mode : Type :=
| Plain       (* outside quotes *)
| Quoted      (* inside a quoted field *)
| Closing.    (* just after a quote met inside a quoted field *)

Fixpoint read_csv (m : Mode) (field : jsstring) (record : list jsstring)
  (s : jsstring) : list (list jsstring) :=
  match s with
  | [] => [record ++ [field]]
  | c :: s' =>
      match m with
      | Plain =>
          if N.eqb c QUOTE then read_csv Quoted field record s'
          else if N.eqb c COMMA then read_csv Plain [] (record ++ [field]) s'
          else if N.eqb c LF then
            (record ++ [field]) :: read_csv Plain [] [] s'
          else read_csv Plain (field ++ [c]) record s'
      | Quoted =>
          if N.eqb c QUOTE then read_csv Closing field record s'
          else read_csv Quoted (field ++ [c]) record s'
      | Closing =>
          if N.eqb c QUOTE then read_csv Quoted (field ++ [QUOTE]) record s'
          else if N.eqb c COMMA then read_csv Plain [] (record ++ [field]) s'
          else if N.eqb c LF then
            (record ++ [field]) :: read_csv Plain [] [] s'
          else read_csv Plain (field ++ [c]) record s'
      end
  end.

Definition parse_csv (text : jsstring) : list (list jsstring) :=
  read_csv Plain [] [] text.

(** What a reader is expected to recover from the row of a record. *)
Definition bool_text (b : bool) : jsstring :=
  if b then lit "true" else lit "false".

Definition position_text (v : JSValue) : jsstring :=
  match v with
  | VNull | VUndefined => []
  | _ => match ToString v with
         | Normal s => s
         | Abrupt _ => []
         end
  end.

Definition fields_of (r : Result) : list jsstring :=
  [prompt r; bool_text (mentioned r); position_text (position r)].

Definition header_fields : list jsstring :=
  [lit "prompt"; lit "mentioned"; lit "position"].

(** The text [e] is what [escapeCSV] writes for a field whose content is
    [content]. *)
Definition writes (e content : jsstring) : Prop :=
  (e = [] /\ content = [])
  \/ e = QUOTE :: replace_quotes content ++ [QUOTE].

(** A position that [String] can convert: every number, string, boolean
    and [null], as the interface has it, and every array or object of parsed
    JSON without an own [toString]. *)
Definition printable (r : Result) : bool :=
  match ToString (position r) with
  | Normal _ => true
  | Abrupt _ => false
  end.

Definition single_line (r : Result) : Prop :=
  ~ In LF (prompt r) /\ ~ In LF (position_text (position r)).

(** ** Observations on a trace *)

Definition is_fetch (a : Action) : bool :=
  match a with Fetch _ _ _ _ => true | _ => false end.

Definition is_set_loading (a : Action) : bool :=
  match a with SetLoading _ => true | _ => false end.

Definition is_set_results (a : Action) : bool :=
  match a with SetResults _ => true | _ => false end.

(** The submission passes the guard of line 22. *)
Definition valid_input (st : State.t) : Prop :=
  trim (State.prompt st) <> [] /\ trim (State.brand st) <> [].

(** The request of lines 34-38. *)
Definition request (env : Env) (st : State.t) : Action :=
  Fetch (backend env ++ lit "/api/check") (lit "POST")
    (State.prompt st) (State.brand st).

(** ** The paths of a run

    The calls made on each path through [runCheck] once the guard has
    passed; the path lemmas below show that the handler makes exactly
    these. *)

(** Through [catch]: what was thrown becomes the banner. *)
Definition caught (env : Env) (st : State.t) (err : Exn) : list Action :=
  [SetError (VStr []); SetLoading true; request env st;
   SetError (nullish_or (optional_message env err) (VStr CONNECTION_FAILURE));
   SetLoading false].

(** The record built from a body that is not [null]. *)
Definition built (st : State.t) (data : JSValue) : Result :=
  {| prompt := State.prompt st;
     mentioned := ToBoolean (property data (lit "mentioned"));
     position := nullish_or (property data (lit "position")) VNull;
     error := property data (lit "error") |}.

(** Through the whole [try] block. *)
Definition answered (env : Env) (st : State.t) (res : Response)
  (data : JSValue) : list Action :=
  [SetError (VStr []); SetLoading true; request env st]
  ++ (if ok res then []
      else [SetError (nullish_or (property data (lit "error"))
                        (VStr (status_message (status res))))])
  ++ [SetResults (fun prev => built st data :: prev)]
  ++ (if ToBoolean (property data (lit "error"))
      then [SetError (property data (lit "error"))] else [])
  ++ [SetLoading false].

(** ** Sample data *)

Definition sample_engine (cause : TypeErrorCause) : jsstring :=
  match cause with
  | NullRead prop =>
      lit "Cannot read properties of null (reading '" ++ prop ++ lit "')"
  | NotPrimitive => lit "Cannot convert object to primitive value"
  end.

Definition sample_env (outcome : FetchOutcome) : Env :=
  {| NEXT_PUBLIC_BACKEND_URL := None;
     network := outcome;
     engine_message := sample_engine |}.

Definition sample_state (p b : jsstring) (ledger : list Result) : State.t :=
  {| State.prompt := p; State.brand := b; State.results := ledger;
     State.error := VStr []; State.loading := false |}.

Definition shoes : State.t :=
  sample_state (lit "Best running shoes?") (lit "Nike") [].

Definition Error (message : jsstring) : JSValue :=
  VObj [(lit "message", VStr message)].

Definition older : Result :=
  {| prompt := lit "Which phone is best?"; mentioned := true;
     position := VNum 3; error := VUndefined |}.

(** ** The rest of the component

    The initial value of the five cells, the inline handlers of the form
    (typing in the two fields, Reset, Clear) and the [disabled] condition
    of the Run button. *)

Definition initial : State.t :=
  {| State.prompt := []; State.brand := []; State.results := [];
     State.error := VStr []; State.loading := false |}.

Inductive UserEvent : Type :=
| ChangePrompt (value : jsstring)     (* [setPrompt(e.target.value)] *)
| ChangeBrand (value : jsstring)      (* [setBrand(e.target.value)] *)
| ClickReset                          (* [setPrompt(""); setBrand("")] *)
| ClickClear.                         (* [setResults([])] *)

Definition handle (st : State.t) (ev : UserEvent) : State.t :=
  match ev with
  | ChangePrompt value =>
      {| State.prompt := value; State.brand := State.brand st;
         State.results := State.results st; State.error := State.error st;
         State.loading := State.loading st |}
  | ChangeBrand value =>
      {| State.prompt := State.prompt st; State.brand := value;
         State.results := State.results st; State.error := State.error st;
         State.loading := State.loading st |}
  | ClickReset =>
      {| State.prompt := []; State.brand := [];
         State.results := State.results st; State.error := State.error st;
         State.loading := State.loading st |}
  | ClickClear =>
      {| State.prompt := State.prompt st; State.brand := State.brand st;
         State.results := []; State.error := State.error st;
         State.loading := State.loading st |}
  end.

(** [disabled={loading}] of Run check. *)
Definition run_disabled (st : State.t) : bool := State.loading st.

(** ** Rendering

    Every change of a cell renders the component again.  The banner and
    two cells of each ledger row put a run-time value among the children
    of an element; a string or a number is shown as text, a boolean, [null]
    or [undefined] as nothing, an array as its elements, and an object is
    refused: rendering throws, and with no error boundary in the component
    the whole of it is taken off the screen, state included. *)

Fixpoint child_ok (v : JSValue) : bool :=
  match v with
  | VObj _ => false
  | VArr elems => forallb child_ok elems
  | _ => true
  end.

(** The child of the banner: [error && <div>...{error}</div>]. *)
Definition banner_ok (e : JSValue) : bool :=
  if ToBoolean e then child_ok e else true.

(** The children of the position and error cells of a row:
    [r.position === null ? "-" : r.position] and [r.error ?? ""]. *)
Definition position_cell (r : Result) : JSValue :=
  match position r with
  | VNull => VStr (lit "-")
  | p => p
  end.

Definition error_cell (r : Result) : JSValue :=
  nullish_or (error r) (VStr []).

Definition row_ok (r : Result) : bool :=
  child_ok (position_cell r) && child_ok (error_cell r).

Definition renders (st : State.t) : bool :=
  banner_ok (State.error st) && forallb row_ok (State.results st).

Inductive Screen : Type :=
| Mounted (st : State.t)
| Crashed.

Definition show (st : State.t) : Screen :=
  if renders st then Mounted st else Crashed.

(** The calls of a handler on a mounted component, the state being
    rendered after each.  (For a run of [runCheck] it makes no difference
    whether the engine renders after each call or once per batch; see
    [play_run].) *)
Fixpoint play (st : State.t) (t : list Action) : Screen :=
  match t with
  | [] => Mounted st
  | a :: t' => if renders (step st a) then play (step st a) t' else Crashed
  end.

Definition on_event (scr : Screen) (ev : UserEvent) : Screen :=
  match scr with
  | Mounted st => show (handle st ev)
  | Crashed => Crashed
  end.

(** A check in flight.  The handler runs up to the call of [fetch] and is
    suspended there; the form stays live, so user events are handled before
    the rest of the handler runs.  (Nothing touches the state between the
    two [await]s, so one point of suspension stands for both.) *)
Fixpoint until_fetch (t : list Action) : list Action * list Action :=
  match t with
  | [] => ([], [])
  | a :: t' =>
      if is_fetch a then ([a], t')
      else let (sent, rest) := until_fetch t' in (a :: sent, rest)
  end.

Definition in_flight (env : Env) (st : State.t) : Screen :=
  play st (fst (until_fetch (trace env st))).

Definition settled (env : Env) (st : State.t) (events : list UserEvent)
  : Screen :=
  match fold_left on_event events (in_flight env st) with
  | Mounted s => play s (snd (until_fetch (trace env st)))
  | Crashed => Crashed
  end.

(** A session: checks that run to completion, and user events between
    them, on the screen. *)
Inductive Step : Type :=
| Run (env : Env)
| User (ev : UserEvent).

Definition advance (scr : Screen) (s : Step) : Screen :=
  match scr, s with
  | Mounted st, Run env => play st (trace env st)
  | Mounted st, User ev => show (handle st ev)
  | Crashed, _ => Crashed
  end.

Definition session (scr : Screen) (steps : list Step) : Screen :=
  fold_left advance steps scr.

(** An environment that answers as the declared types have it: a position
    that is a number or [null], an error that is a string, either of them
    possibly absent, and failures whose message, if any, is a string. *)
Definition declared_position (v : JSValue) : bool :=
  match v with
  | VNum _ | VNull | VUndefined => true
  | _ => false
  end.

Definition declared_text (v : JSValue) : bool :=
  match v with
  | VStr _ | VUndefined => true
  | _ => false
  end.

Definition declared (env : Env) : bool :=
  match network env with
  | FetchRejects reason =>
      declared_text (optional_message env (ExnValue reason))
  | FetchResolves res =>
      match body res with
      | JsonRejects reason =>
          declared_text (optional_message env (ExnValue reason))
      | JsonResolves data =>
          is_nullish data
          || (declared_position (property data (lit "position"))
              && declared_text (property data (lit "error")))
      end
  end.

Definition declared_step (s : Step) : bool :=
  match s with
  | Run env => declared env
  | User _ => true
  end.

(** What every ledger entry satisfies. *)
Definition well_formed (r : Result) : Prop :=
  position r <> VUndefined /\ trim (prompt r) <> [].

(** Two records with the same exported columns. *)
Definition same_columns (r r' : Result) : Prop :=
  prompt r = prompt r' /\ mentioned r = mentioned r'
  /\ position r = position r'.

(** Induction on values, with the elements of an array as premises. *)
Section ValueInduction.

Variable P : JSValue -> Prop.
Hypothesis P_undefined : P VUndefined.
Hypothesis P_null : P VNull.
Hypothesis P_bool : forall b, P (VBool b).
Hypothesis P_num : forall n, P (VNum n).
Hypothesis P_str : forall s, P (VStr s).
Hypothesis P_arr : forall elems, Forall P elems -> P (VArr elems).
Hypothesis P_obj : forall props, P (VObj props).

Fixpoint JSValue_elems_ind (v : JSValue) : P v :=
  match v with
  | VUndefined => P_undefined
  | VNull => P_null
  | VBool b => P_bool b
  | VNum n => P_num n
  | VStr s => P_str s
  | VArr elems =>
      P_arr ((fix all (l : list JSValue) : Forall P l :=
                match l with
                | [] => Forall_nil P
                | x :: rest => Forall_cons x (JSValue_elems_ind x) (all rest)
                end) elems)
  | VObj props => P_obj props
  end.

End ValueInduction.

(** * Properties *)

(** ** Basic facts *)

Lemma is_empty_spec (s : jsstring) : is_empty s = true <-> s = [].
Proof. destruct s; simpl; split; congruence. Qed.

Lemma guard_of_valid (st : State.t) :
  valid_input st ->
  is_empty (trim (State.prompt st)) || is_empty (trim (State.brand st)) = false.
Proof.
  intros [Hp Hb].
  destruct (trim (State.prompt st)); [congruence|].
  destruct (trim (State.brand st)); [congruence|].
  reflexivity.
Qed.

Lemma get_not_nullish (v : JSValue) (key : jsstring) :
  is_nullish v = false -> get v key = Normal (property v key).
Proof. unfold get. intros ->. reflexivity. Qed.

Lemma get_nullish (v : JSValue) (key : jsstring) :
  is_nullish v = true -> get v key = Abrupt (ExnTypeError (NullRead key)).
Proof. unfold get. intros ->. reflexivity. Qed.

(** ** The shape of a run, path by path *)

(** Unfolds the handler monad and nothing else. *)
Ltac run :=
  cbv beta iota zeta delta
    [bind ret call throw lift setError setLoading setResults fetch json item
     try_catch_finally].

Section Paths.

Variable env : Env.
Variable st : State.t.
Hypothesis Hvalid : valid_input st.

Lemma run_fetch_rejects (reason : JSValue) :
  network env = FetchRejects reason ->
  runCheck env st = (caught env st (ExnValue reason), Normal tt).
Proof using Hvalid.
  intros Hnet. unfold runCheck.
  rewrite (guard_of_valid Hvalid).
  run. rewrite Hnet. reflexivity.
Qed.

Lemma run_json_rejects (res : Response) (reason : JSValue) :
  network env = FetchResolves res ->
  body res = JsonRejects reason ->
  runCheck env st = (caught env st (ExnValue reason), Normal tt).
Proof using Hvalid.
  intros Hnet Hbody. unfold runCheck.
  rewrite (guard_of_valid Hvalid).
  run. rewrite Hnet. run. rewrite Hbody. reflexivity.
Qed.

Lemma run_null_body (res : Response) (data : JSValue) :
  network env = FetchResolves res ->
  body res = JsonResolves data ->
  is_nullish data = true ->
  runCheck env st =
    (caught env st (ExnTypeError
               (NullRead (if ok res then lit "mentioned" else lit "error"))),
     Normal tt).
Proof using Hvalid.
  intros Hnet Hbody Hnull. unfold runCheck.
  rewrite (guard_of_valid Hvalid).
  run. rewrite Hnet. run. rewrite Hbody. run.
  unfold get. rewrite Hnull.
  destruct (ok res); reflexivity.
Qed.

Lemma run_answered (res : Response) (data : JSValue) :
  network env = FetchResolves res ->
  body res = JsonResolves data ->
  is_nullish data = false ->
  runCheck env st = (answered env st res data, Normal tt).
Proof using Hvalid.
  intros Hnet Hbody Hnull. unfold runCheck.
  rewrite (guard_of_valid Hvalid).
  run. rewrite Hnet. run. rewrite Hbody. run.
  unfold get, answered. rewrite Hnull.
  destruct (ok res), (ToBoolean (property data (lit "error"))); reflexivity.
Qed.

(** The four paths cover every environment. *)
Lemma run_cases :
  (exists err, runCheck env st = (caught env st err, Normal tt))
  \/ (exists res data, is_nullish data = false
        /\ runCheck env st = (answered env st res data, Normal tt)).
Proof using Hvalid.
  destruct (network env) as [reason|res] eqn:Hnet.
  - left. eexists. apply run_fetch_rejects. eassumption.
  - destruct (body res) as [reason|data] eqn:Hbody.
    + left. eexists. eapply run_json_rejects; eassumption.
    + destruct (is_nullish data) eqn:Hnull.
      * left. eexists. eapply run_null_body; eassumption.
      * right. exists res, data. split; [assumption|].
        apply run_answered; assumption.
Qed.

End Paths.

Lemma valid_of_guard (st : State.t) :
  is_empty (trim (State.prompt st)) || is_empty (trim (State.brand st)) = false ->
  valid_input st.
Proof.
  intros H. apply orb_false_elim in H as [Hp Hb].
  split; intros E; rewrite E in *; discriminate.
Qed.

Lemma run_invalid (env : Env) (st : State.t) :
  is_empty (trim (State.prompt st)) || is_empty (trim (State.brand st)) = true ->
  runCheck env st =
    ([SetError (VStr []); SetError (VStr INVALID_INPUT)], Normal tt).
Proof. intros H. unfold runCheck. rewrite H. reflexivity. Qed.

Lemma after_caught (env : Env) (st : State.t) (err : Exn) :
  reduce st (caught env st err) =
    {| State.prompt := State.prompt st; State.brand := State.brand st;
       State.results := State.results st;
       State.error :=
         nullish_or (optional_message env err) (VStr CONNECTION_FAILURE);
       State.loading := false |}.
Proof. reflexivity. Qed.

Lemma after_answered (env : Env) (st : State.t) (res : Response)
  (data : JSValue) :
  reduce st (answered env st res data) =
    {| State.prompt := State.prompt st; State.brand := State.brand st;
       State.results := built st data :: State.results st;
       State.error :=
         if ok res then
           (if ToBoolean (property data (lit "error"))
            then property data (lit "error") else VStr [])
         else nullish_or (property data (lit "error"))
                (VStr (status_message (status res)));
       State.loading := false |}.
Proof.
  unfold answered.
  destruct (ok res), (ToBoolean (property data (lit "error"))) eqn:Ht;
    try reflexivity.
  (* a failure status and a truthy error: both calls set the same text *)
  unfold reduce; simpl. unfold nullish_or.
  destruct (property data (lit "error")); try discriminate; reflexivity.
Qed.

(** The falsy values of parsed JSON. *)
Lemma falsy_values (v : JSValue) :
  ToBoolean v = false <->
  In v [VUndefined; VNull; VBool false; VNum 0; VStr []].
Proof.
  split.
  - destruct v as [| |b|n|s|l|l]; simpl; intros H.
    + auto.
    + auto.
    + subst b. auto.
    + apply negb_false_iff, Z.eqb_eq in H. subst n. auto 6.
    + destruct s; [auto 7 | discriminate].
    + discriminate.
    + discriminate.
  - simpl. intros [<-|[<-|[<-|[<-|[<-|[]]]]]]; reflexivity.
Qed.

(** What the [catch] block shows for a rejection [reason]. *)
Lemma banner_of_reason (env : Env) (reason : JSValue) :
  let shown :=
    nullish_or (optional_message env (ExnValue reason))
      (VStr CONNECTION_FAILURE) in
  (forall m, is_nullish reason = false ->
             property reason (lit "message") = VStr m -> shown = VStr m)
  /\ (is_nullish reason = true
      \/ is_nullish (property reason (lit "message")) = true ->
      shown = VStr CONNECTION_FAILURE).
Proof.
  cbv zeta. unfold optional_message, get. split.
  - intros m Hr Hm. rewrite Hr, Hm. reflexivity.
  - intros [Hr|Hm].
    + rewrite Hr. reflexivity.
    + destruct (is_nullish reason); [reflexivity|].
      unfold nullish_or. rewrite Hm. reflexivity.
Qed.

(** ** The claims on the check workflow *)

(** C5.  When the prompt or the brand trims to the empty string, the check
    only sets the invalid-input message: the ledger is unchanged, [fetch] is
    not called and the busy flag is not touched. *)
Theorem invalid_input_stops_the_check (env : Env) (st : State.t) :
  trim (State.prompt st) = [] \/ trim (State.brand st) = [] ->
  runCheck env st =
    ([SetError (VStr []); SetError (VStr INVALID_INPUT)], Normal tt)
  /\ INVALID_INPUT = lit "Please enter both a prompt and a brand name."
  /\ State.error (after env st) = VStr INVALID_INPUT
  /\ State.results (after env st) = State.results st
  /\ State.loading (after env st) = State.loading st
  /\ existsb is_fetch (trace env st) = false
  /\ existsb is_set_loading (trace env st) = false
  /\ existsb is_set_results (trace env st) = false.
Proof.
  intros H.
  assert (G : is_empty (trim (State.prompt st))
              || is_empty (trim (State.brand st)) = true).
  { destruct H as [-> | ->]; [reflexivity | apply orb_true_r]. }
  unfold after, trace. rewrite (run_invalid env st G).
  repeat split.
Qed.

Lemma invalid_input_stops_the_check_witness :
  State.results
    (after (sample_env (FetchRejects VUndefined))
       (sample_state (lit "  ") (lit "Nike") [older])) = [older].
Proof.
  apply (invalid_input_stops_the_check
           (sample_env (FetchRejects VUndefined))
           (sample_state (lit "  ") (lit "Nike") [older])).
  left. reflexivity.
Defined.

(** C1, as the code has it.  When [fetch] rejects, the [catch] block sets
    the banner to the failure's message, or to the connection-failure text
    when there is none, and nothing else: no record is built, the ledger is
    unchanged, and the busy flag is cleared. *)
Theorem transport_failure_sets_the_banner_only
  (env : Env) (st : State.t) (reason : JSValue) :
  valid_input st ->
  network env = FetchRejects reason ->
  State.results (after env st) = State.results st
  /\ existsb is_set_results (trace env st) = false
  /\ (forall m, is_nullish reason = false ->
                property reason (lit "message") = VStr m ->
                State.error (after env st) = VStr m)
  /\ (is_nullish reason = true
      \/ is_nullish (property reason (lit "message")) = true ->
      State.error (after env st) = VStr CONNECTION_FAILURE)
  /\ State.loading (after env st) = false.
Proof.
  intros Hv Hnet. unfold after, trace.
  rewrite (run_fetch_rejects env Hv Hnet). cbn [fst].
  rewrite after_caught. cbn [State.results State.error State.loading].
  destruct (banner_of_reason env reason) as [Hm Hd].
  repeat split; assumption.
Qed.

Lemma transport_failure_sets_the_banner_only_witness :
  State.results (after (sample_env (FetchRejects VUndefined)) shoes) = [].
Proof.
  apply (@transport_failure_sets_the_banner_only
           (sample_env (FetchRejects VUndefined)) shoes VUndefined).
  - split; discriminate.
  - reflexivity.
Defined.

(** C1 as stated fails: with the network unreachable and an empty ledger,
    the ledger is still empty after the check, so index 0 holds no record,
    while the banner shows the failure. *)
Lemma transport_failure_appends_no_record :
  let env := sample_env (FetchRejects (Error (lit "Failed to fetch"))) in
  valid_input shoes
  /\ nth_error (State.results (after env shoes)) 0 = None
  /\ State.error (after env shoes) = VStr (lit "Failed to fetch")
  /\ ~ (exists r, nth_error (State.results (after env shoes)) 0 = Some r
                  /\ mentioned r = false /\ position r = VNull).
Proof.
  cbv zeta. split; [split; discriminate|].
  split; [reflexivity|]. split; [reflexivity|].
  intros [r [H _]]. discriminate H.
Qed.

(** C10.  When the endpoint answers, with whatever status, and the body is
    not JSON, the rejection of [res.json()] takes the same [catch] path as a
    transport failure: no record, the banner set to the parse error's
    message or to the connection-failure text, the busy flag cleared. *)
Theorem body_parse_failure_is_caught
  (env : Env) (st : State.t) (res : Response) (reason : JSValue) :
  valid_input st ->
  network env = FetchResolves res ->
  body res = JsonRejects reason ->
  runCheck env st = (caught env st (ExnValue reason), Normal tt)
  /\ State.results (after env st) = State.results st
  /\ existsb is_set_results (trace env st) = false
  /\ (forall m, is_nullish reason = false ->
                property reason (lit "message") = VStr m ->
                State.error (after env st) = VStr m)
  /\ (is_nullish reason = true
      \/ is_nullish (property reason (lit "message")) = true ->
      State.error (after env st) = VStr CONNECTION_FAILURE)
  /\ State.loading (after env st) = false.
Proof.
  intros Hv Hnet Hbody. unfold after, trace.
  rewrite (run_json_rejects env Hv Hnet Hbody). cbn [fst].
  rewrite after_caught. cbn [State.results State.error State.loading].
  destruct (banner_of_reason env reason) as [Hm Hd].
  repeat split; assumption.
Qed.

Lemma body_parse_failure_is_caught_witness :
  let res := {| status := 200;
                body := JsonRejects (Error (lit "Unexpected token <")) |} in
  State.error (after (sample_env (FetchResolves res)) shoes)
  = VStr (lit "Unexpected token <").
Proof.
  cbv zeta.
  refine (proj1 (proj2 (proj2 (proj2
    (@body_parse_failure_is_caught
       (sample_env (FetchResolves
          {| status := 200;
             body := JsonRejects (Error (lit "Unexpected token <")) |}))
       shoes _ (Error (lit "Unexpected token <")) _ eq_refl eq_refl)))) _ _ _).
  - split; discriminate.
  - reflexivity.
  - reflexivity.
Defined.

(** C2, as the code has it.  When the endpoint answers with a failure
    status and a JSON body other than [null], a record is built and
    prepended: [mentioned] is the truthiness of the body's field,
    [position] is the body's or [null], and [error] is the body's [error]
    field as it is ([undefined] when the body has none).  The banner shows
    the body's [error] unless it is [null] or [undefined], and the text
    made from the status code otherwise. *)
Theorem http_failure_still_appends
  (env : Env) (st : State.t) (res : Response) (data : JSValue) :
  valid_input st ->
  network env = FetchResolves res ->
  ok res = false ->
  body res = JsonResolves data ->
  is_nullish data = false ->
  State.results (after env st) =
    {| prompt := State.prompt st;
       mentioned := ToBoolean (property data (lit "mentioned"));
       position := nullish_or (property data (lit "position")) VNull;
       error := property data (lit "error") |} :: State.results st
  /\ State.error (after env st) =
       nullish_or (property data (lit "error"))
         (VStr (lit "Backend returned status " ++ number_to_string (status res)))
  /\ State.loading (after env st) = false.
Proof.
  intros Hv Hnet Hok Hbody Hnull. unfold after, trace.
  rewrite (run_answered env Hv Hnet Hbody Hnull). cbn [fst].
  rewrite after_answered, Hok. repeat split.
Qed.

Lemma http_failure_still_appends_witness :
  let res := {| status := 500;
                body := JsonResolves
                          (VObj [(lit "error", VStr (lit "rate limited"))]) |} in
  let st' := after (sample_env (FetchResolves res)) shoes in
  State.results st' =
    [{| prompt := lit "Best running shoes?"; mentioned := false;
        position := VNull; error := VStr (lit "rate limited") |}]
  /\ State.error st' = VStr (lit "rate limited")
  /\ State.loading st' = false.
Proof.
  cbv zeta.
  refine (@http_failure_still_appends
            (sample_env (FetchResolves
               {| status := 500;
                  body := JsonResolves
                    (VObj [(lit "error", VStr (lit "rate limited"))]) |}))
            shoes _ (VObj [(lit "error", VStr (lit "rate limited"))])
            _ eq_refl eq_refl eq_refl eq_refl).
  split; discriminate.
Defined.

(** C2 as stated fails on two bodies.  On status 500 with the body [{}]
    the banner shows the text made from the status code, yet the record
    prepended to the ledger has no [error].  On status 500 with the body
    [null], reading [data.error] throws: no record is built and the banner
    shows the engine's message. *)
Lemma http_failure_counterexample :
  let empty := {| status := 500; body := JsonResolves (VObj []) |} in
  let st1 := after (sample_env (FetchResolves empty)) shoes in
  let null := {| status := 500; body := JsonResolves VNull |} in
  let st2 := after (sample_env (FetchResolves null)) shoes in
  valid_input shoes
  /\ ok empty = false
  /\ State.error st1 = VStr (lit "Backend returned status 500")
  /\ (exists r, nth_error (State.results st1) 0 = Some r
                /\ error r = VUndefined)
  /\ State.results st2 = []
  /\ State.error st2
     = VStr (lit "Cannot read properties of null (reading 'error')").
Proof.
  cbv zeta. split; [split; discriminate|].
  split; [reflexivity|]. split; [reflexivity|].
  split; [eexists; split; reflexivity|].
  split; reflexivity.
Qed.

(** C4.  The record built from a request and a raw payload: [mentioned]
    is the truthiness of the raw field, false exactly for [undefined] (also
    when the field is absent), [null], [false], [0] and the empty string;
    [position] is the raw one unless that is [undefined], and [null] then;
    [error] is the raw one, [undefined] when absent; [prompt] is the
    request's, whatever the payload holds.  (The payload [null] has no
    properties to read: no record is built from it.) *)
Theorem record_normalization (request_prompt : jsstring) (data : JSValue) :
  (is_nullish data = false ->
   exists r,
     item request_prompt data = ([], Normal r)
     /\ prompt r = request_prompt
     /\ mentioned r = ToBoolean (property data (lit "mentioned"))
     /\ (mentioned r = false <->
         In (property data (lit "mentioned"))
            [VUndefined; VNull; VBool false; VNum 0; VStr []])
     /\ position r = match property data (lit "position") with
                     | VUndefined => VNull
                     | p => p
                     end
     /\ error r = property data (lit "error")
     /\ (forall props key, data = VObj props ->
                           own_property props key = None ->
                           property data key = VUndefined))
  /\ (is_nullish data = true ->
      item request_prompt data
      = ([], Abrupt (ExnTypeError (NullRead (lit "mentioned"))))).
Proof.
  split; intros Hnull.
  2:{ unfold item. run. unfold get. rewrite Hnull. reflexivity. }
  eexists. split.
  { unfold item. run. unfold get. rewrite Hnull. reflexivity. }
  cbn [prompt mentioned position error].
  split; [reflexivity|]. split; [reflexivity|]. split.
  { apply falsy_values. }
  split.
  { destruct (property data (lit "position")); reflexivity. }
  split; [reflexivity|].
  intros props key -> Hk. simpl. rewrite Hk. reflexivity.
Qed.

Lemma record_normalization_witness :
  exists r,
    item (lit "Best running shoes?")
      (VObj [(lit "prompt", VStr (lit "echo"));
             (lit "mentioned", VStr (lit "yes"));
             (lit "position", VNum 3)]) = ([], Normal r)
    /\ prompt r = lit "Best running shoes?"
    /\ mentioned r = true
    /\ position r = VNum 3
    /\ error r = VUndefined.
Proof.
  destruct (proj1 (@record_normalization (lit "Best running shoes?")
              (VObj [(lit "prompt", VStr (lit "echo"));
                     (lit "mentioned", VStr (lit "yes"));
                     (lit "position", VNum 3)])) eq_refl)
    as [r [H1 [H2 [H3 [_ [H5 [H6 _]]]]]]].
  exists r. repeat split; assumption.
Defined.

(** C6.  Whenever a run of the check updates the ledger, the update puts
    one new record in front of whatever the ledger holds: afterwards the
    new record is at index 0 and the record that was at index [i] is at
    index [i + 1], unchanged. *)
Theorem append_is_a_prepend
  (env : Env) (st : State.t) (update : list Result -> list Result) :
  In (SetResults update) (trace env st) ->
  exists it,
    (forall prev, update prev = it :: prev)
    /\ State.results (after env st) = it :: State.results st
    /\ nth_error (State.results (after env st)) 0 = Some it
    /\ (forall i, nth_error (State.results (after env st)) (S i)
                  = nth_error (State.results st) i)
    /\ List.length (State.results (after env st))
       = S (List.length (State.results st)).
Proof.
  unfold after, trace. intros Hin.
  destruct (is_empty (trim (State.prompt st))
            || is_empty (trim (State.brand st))) eqn:G.
  { rewrite (run_invalid env st G) in Hin. simpl in Hin.
    destruct Hin as [H|[H|[]]]; discriminate H. }
  apply valid_of_guard in G.
  destruct (run_cases env G) as [[err E] | [res [data [Hnull E]]]];
    rewrite E in *; cbn [fst] in *.
  { simpl in Hin.
    repeat (destruct Hin as [H|Hin]; [discriminate H|]). destruct Hin. }
  exists (built st data).
  assert (Hu : update = fun prev => built st data :: prev).
  { unfold answered in Hin.
    destruct (ok res), (ToBoolean (property data (lit "error")));
      simpl in Hin;
      repeat (destruct Hin as [H|Hin];
              [first [discriminate H | (injection H as H; auto)]|]);
      destruct Hin. }
  rewrite after_answered. cbn [State.results]. subst update.
  repeat split.
Qed.

Lemma append_is_a_prepend_witness :
  let res := {| status := 200;
                body := JsonResolves
                          (VObj [(lit "mentioned", VBool true);
                                 (lit "position", VNum 1)]) |} in
  let env := sample_env (FetchResolves res) in
  let st := sample_state (lit "Best running shoes?") (lit "Nike") [older] in
  exists it,
    State.results (after env st) = [it; older]
    /\ prompt it = lit "Best running shoes?".
Proof.
  cbv zeta.
  destruct (@append_is_a_prepend
              (sample_env (FetchResolves
                 {| status := 200;
                    body := JsonResolves
                              (VObj [(lit "mentioned", VBool true);
                                     (lit "position", VNum 1)]) |}))
              (sample_state (lit "Best running shoes?") (lit "Nike") [older])
              (fun prev =>
                 {| prompt := lit "Best running shoes?"; mentioned := true;
                    position := VNum 1; error := VUndefined |} :: prev))
    as [it [Hu [Hr _]]].
  - right. right. right. left. reflexivity.
  - exists it. split; [exact Hr|].
    specialize (Hu []). injection Hu as Hu. rewrite <- Hu. reflexivity.
Defined.

(** C8.  Once the guard has passed, the busy flag is set before [fetch] is
    called, nothing in between touches it, and the last call of the run
    clears it: whatever the network does, the run ends normally and leaves
    the flag idle. *)
Theorem busy_flag_is_always_released (env : Env) (st : State.t) :
  valid_input st ->
  exists mid,
    runCheck env st =
      (SetError (VStr []) :: SetLoading true :: request env st
         :: mid ++ [SetLoading false], Normal tt)
    /\ existsb is_set_loading mid = false
    /\ existsb is_fetch mid = false
    /\ State.loading (reduce st [SetError (VStr []); SetLoading true]) = true
    /\ State.loading (after env st) = false.
Proof.
  intros Hv. unfold after, trace.
  destruct (run_cases env Hv) as [[err E] | [res [data [Hnull E]]]];
    rewrite E; cbn [fst].
  - eexists [_]. split; [reflexivity|]. repeat split.
  - rewrite after_answered. cbn [State.loading]. unfold answered.
    destruct (ok res), (ToBoolean (property data (lit "error")));
      [eexists [_; _] | eexists [_] | eexists [_; _; _] | eexists [_; _]];
      (split; [reflexivity|]); repeat split.
Qed.

Lemma busy_flag_is_always_released_witness :
  State.loading
    (after (sample_env (FetchResolves
                          {| status := 200; body := JsonResolves VNull |}))
       shoes) = false.
Proof.
  destruct (@busy_flag_is_always_released
              (sample_env (FetchResolves
                             {| status := 200; body := JsonResolves VNull |}))
              shoes) as [mid [_ [_ [_ [_ H]]]]].
  - split; discriminate.
  - exact H.
Defined.

(** ** The exporter *)

Lemma escapeCSV_string (s : jsstring) :
  escapeCSV (VStr s) = Normal (QUOTE :: replace_quotes s ++ [QUOTE]).
Proof. reflexivity. Qed.

Lemma escapeCSV_bool (b : bool) :
  escapeCSV (VBool b) = Normal (QUOTE :: bool_text b ++ [QUOTE]).
Proof. destruct b; reflexivity. Qed.

Lemma escapeCSV_not_nullish (v : JSValue) (s : jsstring) :
  is_nullish v = false ->
  ToString v = Normal s ->
  escapeCSV v = Normal (QUOTE :: replace_quotes s ++ [QUOTE]).
Proof.
  intros Hn Hs. destruct v; try discriminate Hn;
    unfold escapeCSV; rewrite Hs; reflexivity.
Qed.

Lemma count_replace_quotes (s : jsstring) :
  count_occ N.eq_dec (replace_quotes s) QUOTE
  = 2 * count_occ N.eq_dec s QUOTE.
Proof.
  induction s as [|c s IH]; [reflexivity|].
  simpl replace_quotes. destruct (N.eqb c QUOTE) eqn:E.
  - apply N.eqb_eq in E. subst c.
    rewrite !count_occ_cons_eq by reflexivity. lia.
  - apply N.eqb_neq in E.
    rewrite !count_occ_cons_neq by assumption. exact IH.
Qed.

(** C9.  A double quote inside a string is doubled and the field is wrapped
    in quotes; the prompt [He said (quote)hi(quote)] comes out as the
    quoted text with every inner quote written twice. *)
Theorem embedded_quotes_are_doubled :
  escapeCSV (VStr (lit "He said " ++ QUOTE :: lit "hi" ++ [QUOTE]))
  = Normal (QUOTE :: lit "He said " ++ QUOTE :: QUOTE :: lit "hi"
              ++ [QUOTE; QUOTE; QUOTE])
  /\ (forall s, escapeCSV (VStr s)
                = Normal (QUOTE :: replace_quotes s ++ [QUOTE]))
  /\ (forall s, count_occ N.eq_dec (replace_quotes s) QUOTE
                = 2 * count_occ N.eq_dec s QUOTE)
  /\ (forall m p e,
        exists rest,
          row {| prompt := lit "He said " ++ QUOTE :: lit "hi" ++ [QUOTE];
                 mentioned := m; position := VNum p; error := e |}
          = Normal ((QUOTE :: lit "He said " ++ QUOTE :: QUOTE :: lit "hi"
                       ++ [QUOTE; QUOTE; QUOTE]) ++ COMMA :: rest)).
Proof.
  split; [reflexivity|]. split; [exact escapeCSV_string|].
  split; [exact count_replace_quotes|].
  intros m p e. unfold row. rewrite escapeCSV_string, escapeCSV_bool.
  simpl and_then. eexists. reflexivity.
Qed.

(** ** Reading the export back *)

Lemma read_quoted (s field : jsstring) (record : list jsstring)
  (rest : jsstring) :
  read_csv Quoted field record (replace_quotes s ++ QUOTE :: rest)
  = read_csv Closing (field ++ s) record rest.
Proof.
  revert field. induction s as [|c s IH]; intros field.
  - simpl. rewrite app_nil_r. reflexivity.
  - simpl replace_quotes. destruct (N.eqb c QUOTE) eqn:E.
    + apply N.eqb_eq in E. subst c. simpl. rewrite IH.
      rewrite <- app_assoc. reflexivity.
    + simpl. rewrite E, IH. rewrite <- app_assoc. reflexivity.
Qed.

Lemma read_field_comma (e content : jsstring) (record : list jsstring)
  (rest : jsstring) :
  writes e content ->
  read_csv Plain [] record (e ++ COMMA :: rest)
  = read_csv Plain [] (record ++ [content]) rest.
Proof.
  intros [[-> ->] | ->]; [reflexivity|].
  simpl. rewrite <- app_assoc. simpl. rewrite read_quoted. reflexivity.
Qed.

Lemma read_field_line (e content : jsstring) (record : list jsstring)
  (rest : jsstring) :
  writes e content ->
  read_csv Plain [] record (e ++ LF :: rest)
  = (record ++ [content]) :: read_csv Plain [] [] rest.
Proof.
  intros [[-> ->] | ->]; [reflexivity|].
  simpl. rewrite <- app_assoc. simpl. rewrite read_quoted. reflexivity.
Qed.

Lemma read_field_end (e content : jsstring) (record : list jsstring) :
  writes e content ->
  read_csv Plain [] record e = [record ++ [content]].
Proof.
  intros [[-> ->] | ->]; [reflexivity|].
  simpl. rewrite read_quoted. reflexivity.
Qed.

(** The three fields of a row. *)
Lemma row_shape (r : Result) :
  printable r = true ->
  exists e1 e2 e3,
    row r = Normal (e1 ++ COMMA :: e2 ++ COMMA :: e3)
    /\ writes e1 (prompt r)
    /\ writes e2 (bool_text (mentioned r))
    /\ writes e3 (position_text (position r)).
Proof.
  unfold printable, row. intros Hp.
  rewrite escapeCSV_string, escapeCSV_bool. simpl and_then.
  assert (Hb : bool_text (mentioned r)
               = replace_quotes (bool_text (mentioned r)))
    by (destruct (mentioned r); reflexivity).
  destruct (ToString (position r)) as [s|] eqn:Hs; [|discriminate].
  destruct (is_nullish (position r)) eqn:Hn.
  - exists (QUOTE :: replace_quotes (prompt r) ++ [QUOTE]),
      (QUOTE :: bool_text (mentioned r) ++ [QUOTE]), [].
    destruct (position r); try discriminate Hn;
      (split; [reflexivity|]); (split; [right; reflexivity|]);
      (split; [right; rewrite <- Hb; reflexivity | left; split; reflexivity]).
  - exists (QUOTE :: replace_quotes (prompt r) ++ [QUOTE]),
      (QUOTE :: bool_text (mentioned r) ++ [QUOTE]),
      (QUOTE :: replace_quotes s ++ [QUOTE]).
    rewrite (escapeCSV_not_nullish _ Hn Hs). simpl and_then.
    split; [reflexivity|]. split; [right; reflexivity|].
    split; [right; rewrite <- Hb; reflexivity|].
    right. unfold position_text. rewrite Hs.
    destruct (position r); try discriminate Hn; reflexivity.
Qed.

Lemma read_row_line (r : Result) (x rest : jsstring) :
  printable r = true ->
  row r = Normal x ->
  read_csv Plain [] [] (x ++ LF :: rest)
  = fields_of r :: read_csv Plain [] [] rest.
Proof.
  intros Hp Hx.
  destruct (row_shape r Hp) as [e1 [e2 [e3 [Hr [H1 [H2 H3]]]]]].
  rewrite Hr in Hx. injection Hx as <-.
  rewrite <- app_assoc. simpl. rewrite <- app_assoc. simpl.
  rewrite (read_field_comma _ _ H1), (read_field_comma _ _ H2),
    (read_field_line _ _ H3).
  reflexivity.
Qed.

Lemma read_row_end (r : Result) (x : jsstring) :
  printable r = true ->
  row r = Normal x ->
  read_csv Plain [] [] x = [fields_of r].
Proof.
  intros Hp Hx.
  destruct (row_shape r Hp) as [e1 [e2 [e3 [Hr [H1 [H2 H3]]]]]].
  rewrite Hr in Hx. injection Hx as <-.
  rewrite (read_field_comma _ _ H1), (read_field_comma _ _ H2),
    (read_field_end _ H3).
  reflexivity.
Qed.

Lemma map_rows_total (results : list Result) :
  forallb printable results = true ->
  exists rows, map_rows results = Normal rows
               /\ Forall2 (fun r x => row r = Normal x) results rows.
Proof.
  induction results as [|r rest IH]; simpl; intros H.
  - exists []. split; [reflexivity | constructor].
  - apply andb_prop in H as [Hr Hrest].
    destruct (IH Hrest) as [rows [Hrows Hall]].
    destruct (row_shape r Hr) as [e1 [e2 [e3 [Hx _]]]].
    eexists (_ :: rows). rewrite Hx, Hrows. simpl.
    split; [reflexivity | constructor; assumption].
Qed.

(** C3, as the code has it.  [null] and [undefined] serialize to the empty
    string, with no quote characters; every other value (every string,
    boolean and number, and whatever else [String] converts) is enclosed in
    double quotes.  In every row of the export the prompt and the flag are
    enclosed in quotes, and so is the position unless it is [null] (or
    [undefined]), when the field is empty. *)
Theorem every_non_null_field_is_quoted :
  escapeCSV VNull = Normal []
  /\ escapeCSV VUndefined = Normal []
  /\ (forall s, escapeCSV (VStr s)
                = Normal (QUOTE :: replace_quotes s ++ [QUOTE]))
  /\ (forall b, escapeCSV (VBool b)
                = Normal (QUOTE :: bool_text b ++ [QUOTE]))
  /\ (forall n, escapeCSV (VNum n)
                = Normal (QUOTE :: replace_quotes (number_to_string n)
                            ++ [QUOTE]))
  /\ (forall v s, is_nullish v = false -> ToString v = Normal s ->
                  escapeCSV v = Normal (QUOTE :: replace_quotes s ++ [QUOTE]))
  /\ (forall r, printable r = true ->
        exists f3,
          row r = Normal ((QUOTE :: replace_quotes (prompt r) ++ [QUOTE])
                          ++ COMMA
                          :: (QUOTE :: bool_text (mentioned r) ++ [QUOTE])
                          ++ COMMA :: f3)
          /\ (is_nullish (position r) = true -> f3 = [])
          /\ (is_nullish (position r) = false ->
              exists s, ToString (position r) = Normal s
                        /\ f3 = QUOTE :: replace_quotes s ++ [QUOTE]))
  /\ (forall results, forallb printable results = true ->
        exists rows,
          downloadCSV results = Normal (header ++ join [LF] rows)
          /\ Forall2 (fun r x => row r = Normal x) results rows).
Proof.
  repeat match goal with |- _ /\ _ => split end;
    auto using escapeCSV_string, escapeCSV_bool, escapeCSV_not_nullish.
  - intros r Hp. unfold printable in Hp. unfold row.
    rewrite escapeCSV_string, escapeCSV_bool. cbn [and_then].
    destruct (ToString (position r)) as [s|] eqn:Hs; [|discriminate Hp].
    destruct (is_nullish (position r)) eqn:Hn.
    + exists []. split; [|split; [reflexivity | discriminate]].
      destruct (position r); try discriminate Hn; reflexivity.
    + exists (QUOTE :: replace_quotes s ++ [QUOTE]).
      rewrite (escapeCSV_not_nullish _ Hn Hs). cbn [and_then].
      split; [reflexivity|]. split; [discriminate|].
      intros _. exists s. split; reflexivity.
  - intros results Hp.
    destruct (map_rows_total results Hp) as [rows [Hrows Hall]].
    exists rows. unfold downloadCSV. rewrite Hrows. split; [reflexivity|].
    exact Hall.
Qed.

Lemma every_non_null_field_is_quoted_witness :
  escapeCSV (VArr [VNum 1; VNull; VStr [QUOTE]])
  = Normal (QUOTE :: lit "1,," ++ [QUOTE; QUOTE; QUOTE])
  /\ row {| prompt := lit "a"; mentioned := true;
            position := VStr (lit "b"); error := VUndefined |}
     = Normal (QUOTE :: lit "a" ++ QUOTE :: COMMA
                 :: QUOTE :: lit "true" ++ QUOTE :: COMMA
                 :: QUOTE :: lit "b" ++ [QUOTE]).
Proof.
  split.
  - exact (proj1 (proj2 (proj2 (proj2 (proj2 (proj2
             every_non_null_field_is_quoted)))))
             (VArr [VNum 1; VNull; VStr [QUOTE]]) (lit "1,," ++ [QUOTE])
             eq_refl eq_refl).
  - destruct (proj1 (proj2 (proj2 (proj2 (proj2 (proj2 (proj2
                every_non_null_field_is_quoted))))))
                {| prompt := lit "a"; mentioned := true;
                   position := VStr (lit "b"); error := VUndefined |}
                eq_refl) as [f3 [Hrow [_ Hq]]].
    destruct (Hq eq_refl) as [s [Hs Hf]].
    injection Hs as <-. rewrite Hrow, Hf. reflexivity.
Defined.

(** C3 as stated fails: a [null] value serializes to the empty string, not
    to two quote characters, and the last field of a row whose position is
    [null] is not enclosed in quotes. *)
Lemma null_field_is_not_quoted :
  escapeCSV VNull = Normal []
  /\ escapeCSV VNull <> Normal [QUOTE; QUOTE]
  /\ escapeCSV VUndefined <> Normal [QUOTE; QUOTE]
  /\ row {| prompt := lit "a"; mentioned := false; position := VNull;
            error := VUndefined |}
     = Normal (QUOTE :: lit "a" ++ QUOTE :: COMMA
                 :: QUOTE :: lit "false" ++ [QUOTE; COMMA]).
Proof.
  split; [reflexivity|]. split; [discriminate|]. split; [discriminate|].
  reflexivity.
Qed.

Lemma read_rows (results : list Result) (rows : list jsstring) :
  forallb printable results = true ->
  Forall2 (fun r x => row r = Normal x) results rows ->
  results <> [] ->
  read_csv Plain [] [] (join [LF] rows) = map fields_of results.
Proof.
  intros Hp Hall. revert Hp.
  induction Hall as [|r x rest xs Hx Hall IH]; intros Hp Hne;
    [congruence|].
  simpl in Hp. apply andb_prop in Hp as [Hr Hrest].
  destruct Hall as [|r' x' rest' xs' Hx' Hall'].
  - simpl. apply read_row_end; assumption.
  - change (join [LF] (x :: x' :: xs'))
      with (x ++ LF :: join [LF] (x' :: xs')).
    rewrite (@read_row_line r x _ Hr Hx).
    rewrite IH by (assumption || discriminate). reflexivity.
Qed.

Lemma read_header (rest : jsstring) :
  parse_csv (header ++ rest) = header_fields :: parse_csv rest.
Proof. reflexivity. Qed.

Lemma split_on_app (sep : N) (a b : jsstring) :
  ~ In sep a ->
  split_on sep (a ++ sep :: b) = a :: split_on sep b.
Proof.
  induction a as [|c a IH]; simpl; intros H.
  - rewrite N.eqb_refl. reflexivity.
  - destruct (N.eqb c sep) eqn:E.
    + apply N.eqb_eq in E. exfalso. apply H. left. exact E.
    + rewrite IH by (intros Hin; apply H; right; exact Hin). reflexivity.
Qed.

Lemma split_on_whole (sep : N) (a : jsstring) :
  ~ In sep a -> split_on sep a = [a].
Proof.
  induction a as [|c a IH]; simpl; intros H; [reflexivity|].
  destruct (N.eqb c sep) eqn:E.
  - apply N.eqb_eq in E. exfalso. apply H. left. exact E.
  - rewrite IH by (intros Hin; apply H; right; exact Hin). reflexivity.
Qed.

Lemma split_join (rows : list jsstring) :
  rows <> [] ->
  Forall (fun x => ~ In LF x) rows ->
  split_on LF (join [LF] rows) = rows.
Proof.
  intros Hne Hall. revert Hne.
  induction Hall as [|x xs Hx Hall IH]; intros Hne;
    [exfalso; apply Hne; reflexivity|].
  destruct xs as [|x' xs'].
  - simpl. apply split_on_whole. exact Hx.
  - change (join [LF] (x :: x' :: xs'))
      with (x ++ LF :: join [LF] (x' :: xs')).
    rewrite split_on_app by exact Hx.
    rewrite IH by discriminate. reflexivity.
Qed.

Lemma replace_quotes_keeps_lines (s : jsstring) :
  In LF (replace_quotes s) -> In LF s.
Proof.
  induction s as [|c s IH]; simpl; [tauto|].
  destruct (N.eqb c QUOTE) eqn:E; simpl.
  - apply N.eqb_eq in E. subst c.
    intros [H|[H|H]]; try discriminate H. right. apply IH, H.
  - intros [H|H]; [left; exact H | right; apply IH, H].
Qed.

Lemma writes_keeps_lines (e content : jsstring) :
  writes e content -> ~ In LF content -> ~ In LF e.
Proof.
  intros [[-> ->] | ->] Hc; [exact Hc|].
  simpl. intros [H|H]; [discriminate H|].
  apply in_app_or in H as [H|H].
  - apply Hc, replace_quotes_keeps_lines, H.
  - destruct H as [H|[]]. discriminate H.
Qed.

Lemma row_single_line (r : Result) (x : jsstring) :
  printable r = true ->
  single_line r ->
  row r = Normal x ->
  ~ In LF x.
Proof.
  intros Hp [Hl1 Hl3] Hx.
  destruct (row_shape r Hp) as [e1 [e2 [e3 [Hr [H1 [H2 H3]]]]]].
  rewrite Hr in Hx. injection Hx as <-.
  assert (Hl2 : ~ In LF (bool_text (mentioned r))).
  { destruct (mentioned r); cbv; intuition discriminate. }
  pose proof (writes_keeps_lines H1 Hl1) as N1.
  pose proof (writes_keeps_lines H2 Hl2) as N2.
  pose proof (writes_keeps_lines H3 Hl3) as N3.
  intros H. apply in_app_or in H as [H|[H|H]]; [tauto | discriminate H |].
  apply in_app_or in H as [H|[H|H]]; [tauto | discriminate H | tauto].
Qed.

Lemma rows_read_back (results : list Result) (rows : list jsstring) :
  forallb printable results = true ->
  Forall2 (fun r x => row r = Normal x) results rows ->
  Forall2 (fun line r => parse_csv line = [fields_of r]) rows results.
Proof.
  intros Hp Hall. revert Hp.
  induction Hall as [|r x rest xs Hx Hall IH]; simpl; intros Hp;
    [constructor|].
  apply andb_prop in Hp as [Hr Hrest].
  constructor; [apply read_row_end; assumption | apply IH, Hrest].
Qed.

Lemma rows_single_line (results : list Result) (rows : list jsstring) :
  forallb printable results = true ->
  Forall single_line results ->
  Forall2 (fun r x => row r = Normal x) results rows ->
  Forall (fun x => ~ In LF x) rows.
Proof.
  intros Hp Hs Hall. revert Hp Hs.
  induction Hall as [|r x rest xs Hx Hall IH]; simpl; intros Hp Hs;
    [constructor|].
  apply andb_prop in Hp as [Hr Hrest].
  inversion Hs as [|? ? Hs1 Hs2]; subst.
  constructor; [eapply row_single_line; eassumption | apply IH; assumption].
Qed.

Lemma typed_position_is_printable (r : Result) :
  (position r = VNull \/ exists n, position r = VNum n) ->
  printable r = true.
Proof.
  unfold printable. intros [-> | [n ->]]; reflexivity.
Qed.

(** C7, as the code has it.  For a ledger of N records (N at least 1, every
    position one that [String] converts), reading the export as quoted CSV,
    where a comma or a line break inside quotes belongs to the field, gives
    N + 1 records: the header [prompt], [mentioned], [position], then for
    each ledger entry, in ledger order, its prompt, its flag as [true] or
    [false], and its position (empty for [null]).  When no prompt and no
    position text holds a line feed, the text has exactly N + 1 lines, the
    header line first, and each following line reads back as its record. *)
Theorem export_reads_back (results : list Result) :
  results <> [] ->
  forallb printable results = true ->
  exists text,
    downloadCSV results = Normal text
    /\ parse_csv text = header_fields :: map fields_of results
    /\ List.length (parse_csv text) = S (List.length results)
    /\ (Forall single_line results ->
        exists lines,
          split_on LF text = lit "prompt,mentioned,position" :: lines
          /\ List.length lines = List.length results
          /\ Forall2 (fun line r => parse_csv line = [fields_of r])
               lines results).
Proof.
  intros Hne Hp.
  destruct (map_rows_total results Hp) as [rows [Hrows Hall]].
  exists (header ++ join [LF] rows).
  assert (Hparse : parse_csv (header ++ join [LF] rows)
                   = header_fields :: map fields_of results).
  { rewrite read_header. unfold parse_csv.
    rewrite (read_rows Hp Hall Hne). reflexivity. }
  split; [unfold downloadCSV; rewrite Hrows; reflexivity|].
  split; [exact Hparse|].
  split; [rewrite Hparse; simpl; rewrite length_map; reflexivity|].
  intros Hs. exists rows.
  split.
  - change header with (lit "prompt,mentioned,position" ++ [LF]).
    rewrite <- app_assoc. simpl app at 2.
    rewrite split_on_app by (cbv; intuition discriminate).
    rewrite split_join; [reflexivity | |].
    + intros ->. inversion Hall; subst. apply Hne. reflexivity.
    + eapply rows_single_line; eassumption.
  - split.
    + symmetry. eapply Forall2_length, Hall.
    + apply rows_read_back; assumption.
Qed.

Lemma export_reads_back_witness :
  let ledger :=
    [{| prompt := lit "He said " ++ QUOTE :: lit "hi" ++ [QUOTE; LF]
                    ++ lit "a,b";
        mentioned := false; position := VNull;
        error := VStr (lit "rate limited") |};
     older] in
  exists text,
    downloadCSV ledger = Normal text
    /\ parse_csv text = header_fields :: map fields_of ledger.
Proof.
  cbv zeta.
  destruct (@export_reads_back
              [{| prompt := lit "He said " ++ QUOTE :: lit "hi" ++ [QUOTE; LF]
                              ++ lit "a,b";
                  mentioned := false; position := VNull;
                  error := VStr (lit "rate limited") |};
               older])
    as [text [H1 [H2 _]]].
  - discriminate.
  - reflexivity.
  - exists text. split; assumption.
Defined.

(** C7 as stated fails: a prompt typed on two lines gives, for a ledger of
    one record, an export of three lines, not two; the second line is the
    opening quote and the first half of the prompt. *)
Lemma export_line_count_counterexample :
  let ledger := [{| prompt := lit "a" ++ LF :: lit "b"; mentioned := true;
                    position := VNum 1; error := VUndefined |}] in
  exists text,
    downloadCSV ledger = Normal text
    /\ List.length ledger = 1%nat
    /\ List.length (split_on LF text) = 3%nat
    /\ nth_error (split_on LF text) 1 = Some (QUOTE :: lit "a").
Proof.
  cbv zeta. eexists. split; [reflexivity|].
  split; [reflexivity|]. split; reflexivity.
Qed.

(** * Further properties of the component *)

(** ** The check *)

(** X1.  When the endpoint answers with a success status and a JSON body
    other than [null], the record built from the body is prepended, and the
    banner, cleared at the start of the run, shows the body's [error] only
    when that is truthy: whatever was shown before the run is gone. *)
Theorem success_prepends_and_clears_banner
  (env : Env) (st : State.t) (res : Response) (data : JSValue) :
  valid_input st ->
  network env = FetchResolves res ->
  ok res = true ->
  body res = JsonResolves data ->
  is_nullish data = false ->
  State.results (after env st) =
    {| prompt := State.prompt st;
       mentioned := ToBoolean (property data (lit "mentioned"));
       position := nullish_or (property data (lit "position")) VNull;
       error := property data (lit "error") |} :: State.results st
  /\ State.error (after env st) =
       (if ToBoolean (property data (lit "error"))
        then property data (lit "error") else VStr [])
  /\ State.loading (after env st) = false.
Proof.
  intros Hv Hnet Hok Hbody Hnull. unfold after, trace.
  rewrite (run_answered env Hv Hnet Hbody Hnull). cbn [fst].
  rewrite after_answered, Hok. repeat split.
Qed.

Lemma success_prepends_and_clears_banner_witness :
  let res := {| status := 200;
                body := JsonResolves
                          (VObj [(lit "mentioned", VBool true);
                                 (lit "position", VNum 3)]) |} in
  let st := {| State.prompt := lit "Best running shoes?";
               State.brand := lit "Nike"; State.results := [];
               State.error := VStr (lit "rate limited");
               State.loading := false |} in
  let st' := after (sample_env (FetchResolves res)) st in
  State.results st' =
    [{| prompt := lit "Best running shoes?"; mentioned := true;
        position := VNum 3; error := VUndefined |}]
  /\ State.error st' = VStr []
  /\ State.loading st' = false.
Proof.
  cbv zeta.
  refine (@success_prepends_and_clears_banner
            (sample_env (FetchResolves
               {| status := 200;
                  body := JsonResolves
                            (VObj [(lit "mentioned", VBool true);
                                   (lit "position", VNum 3)]) |}))
            {| State.prompt := lit "Best running shoes?";
               State.brand := lit "Nike"; State.results := [];
               State.error := VStr (lit "rate limited");
               State.loading := false |}
            _ (VObj [(lit "mentioned", VBool true); (lit "position", VNum 3)])
            _ eq_refl eq_refl eq_refl eq_refl).
  split; discriminate.
Defined.

(** X2.  When the endpoint answers with the JSON body [null], whatever the
    status, the first property read throws: no record is built, the ledger
    is unchanged, the banner shows the engine's message for that read, and
    the busy flag is cleared. *)
Theorem null_body_is_caught
  (env : Env) (st : State.t) (res : Response) (data : JSValue) :
  valid_input st ->
  network env = FetchResolves res ->
  body res = JsonResolves data ->
  is_nullish data = true ->
  State.results (after env st) = State.results st
  /\ existsb is_set_results (trace env st) = false
  /\ State.error (after env st) =
       VStr (engine_message env
               (NullRead (if ok res then lit "mentioned" else lit "error")))
  /\ State.loading (after env st) = false.
Proof.
  intros Hv Hnet Hbody Hnull. unfold after, trace.
  rewrite (run_null_body env Hv Hnet Hbody Hnull). cbn [fst].
  rewrite after_caught. repeat split.
Qed.

Lemma null_body_is_caught_witness :
  let res := {| status := 200; body := JsonResolves VNull |} in
  let st := sample_state (lit "Best running shoes?") (lit "Nike") [older] in
  State.results (after (sample_env (FetchResolves res)) st) = [older].
Proof.
  cbv zeta.
  refine (proj1 (@null_body_is_caught
            (sample_env (FetchResolves
               {| status := 200; body := JsonResolves VNull |}))
            (sample_state (lit "Best running shoes?") (lit "Nike") [older])
            _ VNull _ eq_refl eq_refl eq_refl)).
  split; discriminate.
Defined.

(** The ledger after a run, in every environment. *)
Lemma ledger_after_run (env : Env) (st : State.t) :
  State.results (after env st) = State.results st
  \/ exists data, is_nullish data = false
       /\ valid_input st
       /\ State.results (after env st) = built st data :: State.results st.
Proof.
  unfold after, trace.
  destruct (is_empty (trim (State.prompt st))
            || is_empty (trim (State.brand st))) eqn:G.
  { rewrite (run_invalid env st G). left. reflexivity. }
  apply valid_of_guard in G.
  destruct (run_cases env G) as [[err E] | [res [data [Hnull E]]]];
    rewrite E; cbn [fst].
  - left. rewrite after_caught. reflexivity.
  - right. exists data. rewrite after_answered. auto.
Qed.

Lemma form_after_run (env : Env) (st : State.t) :
  State.prompt (after env st) = State.prompt st
  /\ State.brand (after env st) = State.brand st
  /\ State.loading (after env st) = State.loading st \/
  State.prompt (after env st) = State.prompt st
  /\ State.brand (after env st) = State.brand st
  /\ State.loading (after env st) = false.
Proof.
  unfold after, trace.
  destruct (is_empty (trim (State.prompt st))
            || is_empty (trim (State.brand st))) eqn:G.
  { rewrite (run_invalid env st G). left. repeat split. }
  apply valid_of_guard in G. right.
  destruct (run_cases env G) as [[err E] | [res [data [Hnull E]]]];
    rewrite E; cbn [fst].
  - rewrite after_caught. repeat split.
  - rewrite after_answered. repeat split.
Qed.

(** X3.  A run of the check, in any environment and on any input, leaves
    the two form fields as they are, and either leaves the ledger as it is
    or puts exactly one record in front of it: it never removes, changes or
    reorders an entry. *)
Theorem run_keeps_form_and_ledger (env : Env) (st : State.t) :
  State.prompt (after env st) = State.prompt st
  /\ State.brand (after env st) = State.brand st
  /\ (State.results (after env st) = State.results st
      \/ exists r, State.results (after env st) = r :: State.results st).
Proof.
  destruct (form_after_run env st) as [[Hp [Hb _]] | [Hp [Hb _]]];
    (split; [exact Hp|]); (split; [exact Hb|]);
    (destruct (ledger_after_run env st) as [H | [data [_ [_ H]]]];
     [left; exact H | right; eexists; exact H]).
Qed.

(** X4.  On valid input the run calls [fetch] exactly once: a POST to
    [/api/check] under the configured origin, or under
    [http://localhost:3001] when the variable is unset or empty, carrying
    the prompt and the brand as typed (not trimmed). *)
Theorem one_request_per_check (env : Env) (st : State.t) :
  valid_input st ->
  filter is_fetch (trace env st) =
    [Fetch (backend env ++ lit "/api/check") (lit "POST")
       (State.prompt st) (State.brand st)]
  /\ (NEXT_PUBLIC_BACKEND_URL env = None
      \/ NEXT_PUBLIC_BACKEND_URL env = Some [] ->
      backend env ++ lit "/api/check" = lit "http://localhost:3001/api/check")
  /\ (forall origin, NEXT_PUBLIC_BACKEND_URL env = Some origin ->
                     origin <> [] ->
                     backend env = origin).
Proof.
  intros Hv. split.
  - unfold trace.
    destruct (run_cases env Hv) as [[err E] | [res [data [Hnull E]]]];
      rewrite E; cbn [fst]; [reflexivity|].
    unfold answered.
    destruct (ok res), (ToBoolean (property data (lit "error")));
      reflexivity.
  - unfold backend. split.
    + intros [-> | ->]; reflexivity.
    + intros origin -> Hne. destruct origin; [congruence | reflexivity].
Qed.

Lemma one_request_per_check_witness :
  let st := sample_state (lit " shoes ") (lit " Nike") [] in
  filter is_fetch (trace (sample_env (FetchRejects VNull)) st) =
    [Fetch (lit "http://localhost:3001/api/check") (lit "POST")
       (lit " shoes ") (lit " Nike")].
Proof.
  cbv zeta.
  refine (proj1 (@one_request_per_check (sample_env (FetchRejects VNull))
                   (sample_state (lit " shoes ") (lit " Nike") []) _)).
  split; discriminate.
Defined.

(** ** Blank input *)

Lemma trimStart_blank (s : jsstring) :
  trimStart s = [] <-> forallb is_white_space s = true.
Proof.
  induction s as [|c s IH]; simpl; [tauto|].
  destruct (is_white_space c); simpl; [exact IH|].
  split; discriminate.
Qed.

Lemma trimStart_head (s : jsstring) (c : N) (r : jsstring) :
  trimStart s = c :: r -> is_white_space c = false.
Proof.
  induction s as [|d s IH]; simpl; [discriminate|].
  destruct (is_white_space d) eqn:E; [exact IH|].
  intros H. injection H as <- _. exact E.
Qed.

Lemma forallb_rev (f : N -> bool) (s : jsstring) :
  forallb f (rev s) = forallb f s.
Proof.
  destruct (forallb f s) eqn:E.
  - rewrite forallb_forall in *. intros x Hx. apply E, in_rev, Hx.
  - destruct (forallb f (rev s)) eqn:E'; [|reflexivity].
    rewrite <- E. symmetry. rewrite forallb_forall in *.
    intros x Hx. apply E'. rewrite <- in_rev. exact Hx.
Qed.

Lemma trim_blank (s : jsstring) :
  trim s = [] <-> forallb is_white_space s = true.
Proof.
  unfold trim. rewrite <- trimStart_blank. split.
  - intros H. apply (f_equal (@rev N)) in H. rewrite rev_involutive in H.
    simpl in H. apply trimStart_blank in H. rewrite forallb_rev in H.
    destruct (trimStart s) as [|c r] eqn:E; [reflexivity|].
    apply trimStart_head in E. simpl in H. rewrite E in H. discriminate H.
  - intros ->. reflexivity.
Qed.

(** X5.  The check is stopped before any network call exactly when the
    prompt or the brand consists of white space only (spaces, tabs, line
    breaks, no-break spaces and the like, the empty string included); in
    every other case the request is sent. *)
Theorem blank_input_is_exactly_what_is_rejected (env : Env) (st : State.t) :
  (forallb is_white_space (State.prompt st) = true
   \/ forallb is_white_space (State.brand st) = true)
  <-> existsb is_fetch (trace env st) = false.
Proof.
  rewrite <- !trim_blank. unfold trace. split.
  - intros H.
    assert (G : is_empty (trim (State.prompt st))
                || is_empty (trim (State.brand st)) = true).
    { destruct H as [-> | ->]; [reflexivity | apply orb_true_r]. }
    rewrite (run_invalid env st G). reflexivity.
  - intros H.
    destruct (is_empty (trim (State.prompt st))
              || is_empty (trim (State.brand st))) eqn:G.
    + apply orb_prop in G as [G | G]; apply is_empty_spec in G; auto.
    + apply valid_of_guard in G. exfalso.
      destruct (run_cases env G) as [[err E] | [res [data [Hnull E]]]];
        rewrite E in H; cbn [fst] in H; discriminate H.
Qed.

(** ** The form handlers and the screen *)

Lemma handle_events_frame (events : list UserEvent) (st : State.t) :
  State.error (fold_left handle events st) = State.error st
  /\ State.loading (fold_left handle events st) = State.loading st.
Proof.
  revert st. induction events as [|ev events IH]; intros st; simpl;
    [split; reflexivity|].
  destruct (IH (handle st ev)) as [He Hl]. rewrite He, Hl.
  destruct ev; split; reflexivity.
Qed.

Lemma handle_events_congr (events : list UserEvent) (st1 st2 : State.t) :
  State.prompt st1 = State.prompt st2 ->
  State.brand st1 = State.brand st2 ->
  State.results st1 = State.results st2 ->
  State.prompt (fold_left handle events st1)
  = State.prompt (fold_left handle events st2)
  /\ State.brand (fold_left handle events st1)
     = State.brand (fold_left handle events st2)
  /\ State.results (fold_left handle events st1)
     = State.results (fold_left handle events st2).
Proof.
  revert st1 st2. induction events as [|ev events IH]; intros st1 st2 Hp Hb Hr;
    simpl; [auto|].
  apply IH; destruct ev; simpl; assumption || reflexivity.
Qed.

Lemma cleared_stays_cleared (events : list UserEvent) (st : State.t) :
  State.results st = [] ->
  State.results (fold_left handle events st) = [].
Proof.
  revert st. induction events as [|ev events IH]; intros st H; simpl;
    [exact H|].
  apply IH. destruct ev; simpl; assumption || reflexivity.
Qed.

Lemma clear_empties (events : list UserEvent) (st : State.t) :
  In ClickClear events ->
  State.results (fold_left handle events st) = [].
Proof.
  revert st. induction events as [|ev events IH]; intros st Hin;
    [destruct Hin|].
  simpl. destruct Hin as [-> | Hin].
  - apply cleared_stays_cleared. reflexivity.
  - apply IH, Hin.
Qed.

Lemma renders_split (st : State.t) :
  renders st = true <->
  banner_ok (State.error st) = true
  /\ forallb row_ok (State.results st) = true.
Proof. unfold renders. apply andb_true_iff. Qed.

Lemma handle_renders (st : State.t) (ev : UserEvent) :
  renders st = true -> renders (handle st ev) = true.
Proof.
  rewrite !renders_split. intros [Hb Hl].
  destruct ev; simpl; auto.
Qed.

Lemma events_on_mounted (events : list UserEvent) (st : State.t) :
  renders st = true ->
  fold_left on_event events (Mounted st)
  = Mounted (fold_left handle events st)
  /\ renders (fold_left handle events st) = true.
Proof.
  revert st. induction events as [|ev events IH]; intros st Hr; simpl;
    [auto|].
  unfold show. rewrite (handle_renders st ev Hr).
  apply IH, handle_renders, Hr.
Qed.

Lemma child_ok_banner (e : JSValue) :
  child_ok e = true -> banner_ok e = true.
Proof. unfold banner_ok. intros ->. destruct (ToBoolean e); reflexivity. Qed.

Lemma falsy_child_ok (e : JSValue) :
  ToBoolean e = false -> child_ok e = true.
Proof. destruct e; simpl; congruence. Qed.

Lemma child_ok_or_text (e : JSValue) (s : jsstring) :
  child_ok (nullish_or e (VStr s)) = child_ok e.
Proof. destruct e; reflexivity. Qed.

Lemma row_ok_built (st : State.t) (data : JSValue) :
  row_ok (built st data)
  = child_ok (property data (lit "position"))
    && child_ok (property data (lit "error")).
Proof.
  unfold row_ok, position_cell, error_cell, built.
  cbn [position error]. rewrite child_ok_or_text. f_equal.
  destruct (property data (lit "position")); reflexivity.
Qed.

Lemma reduce_app_list (st : State.t) (t1 t2 : list Action) :
  reduce st (t1 ++ t2) = reduce (reduce st t1) t2.
Proof. apply fold_left_app. Qed.

Lemma play_app (st : State.t) (t1 t2 : list Action) :
  play st (t1 ++ t2)
  = match play st t1 with
    | Mounted s => play s t2
    | Crashed => Crashed
    end.
Proof.
  revert st. induction t1 as [|a t1 IH]; intros st; simpl; [reflexivity|].
  destruct (renders (step st a)); [apply IH | reflexivity].
Qed.

(** The calls made up to [fetch], on a component that renders. *)
Lemma play_sent (env : Env) (st : State.t) :
  renders st = true ->
  let sent := [SetError (VStr []); SetLoading true; request env st] in
  play st sent = Mounted (reduce st sent)
  /\ State.error (reduce st sent) = VStr []
  /\ forallb row_ok (State.results (reduce st sent)) = true.
Proof.
  intros Hr. apply renders_split in Hr as [_ Hl]. cbv zeta.
  simpl. unfold renders. simpl. rewrite Hl. simpl. auto.
Qed.

(** The calls made once the body has been read. *)
Lemma play_answer (s : State.t) (it : Result) (okb : bool)
  (e : JSValue) (synth : jsstring) :
  State.error s = VStr [] ->
  forallb row_ok (State.results s) = true ->
  let rest :=
    (if okb then [] else [SetError (nullish_or e (VStr synth))])
    ++ [SetResults (fun prev => it :: prev)]
    ++ (if ToBoolean e then [SetError e] else [])
    ++ [SetLoading false] in
  play s rest
  = if row_ok it && child_ok e then Mounted (reduce s rest) else Crashed.
Proof.
  intros He Hl. cbv zeta.
  destruct (ToBoolean e) eqn:Ht.
  - assert (Hb : banner_ok e = child_ok e)
      by (unfold banner_ok; rewrite Ht; reflexivity).
    assert (Hn : nullish_or e (VStr synth) = e)
      by (destruct e; try discriminate Ht; reflexivity).
    destruct okb; simpl; unfold renders; simpl;
      rewrite ?Hn, ?He, ?Hb, ?Hl; simpl;
      destruct (child_ok e), (row_ok it); reflexivity.
  - pose proof (falsy_child_ok e Ht) as Hc. rewrite Hc, andb_true_r.
    assert (Hb : banner_ok (nullish_or e (VStr synth)) = true)
      by (apply child_ok_banner; rewrite child_ok_or_text; exact Hc).
    destruct okb; simpl; unfold renders; simpl;
      rewrite ?Hb, ?He, ?Hl; simpl;
      destruct (row_ok it); reflexivity.
Qed.

Lemma until_fetch_answered (env : Env) (st : State.t) (res : Response)
  (data : JSValue) :
  until_fetch (answered env st res data)
  = ([SetError (VStr []); SetLoading true; request env st],
     (if ok res then []
      else [SetError (nullish_or (property data (lit "error"))
                        (VStr (status_message (status res))))])
     ++ [SetResults (fun prev => built st data :: prev)]
     ++ (if ToBoolean (property data (lit "error"))
         then [SetError (property data (lit "error"))] else [])
     ++ [SetLoading false]).
Proof. reflexivity. Qed.

Lemma reduce_answer (s : State.t) (it : Result) (okb : bool)
  (e : JSValue) (synth : jsstring) :
  let rest :=
    (if okb then [] else [SetError (nullish_or e (VStr synth))])
    ++ [SetResults (fun prev => it :: prev)]
    ++ (if ToBoolean e then [SetError e] else [])
    ++ [SetLoading false] in
  State.prompt (reduce s rest) = State.prompt s
  /\ State.brand (reduce s rest) = State.brand s
  /\ State.results (reduce s rest) = it :: State.results s
  /\ State.loading (reduce s rest) = false.
Proof.
  cbv zeta. destruct okb, (ToBoolean e); repeat split.
Qed.

(** X6.  While a check is in flight the Run button is disabled and the
    ledger and form are as they were.  What the user does meanwhile is not
    lost and does not stop the append: when an answer arrives whose
    position and error can be rendered, the record, built with the prompt
    of the moment of the click, is put in front of the ledger as the user
    left it (so a Clear in between leaves a ledger of exactly that record),
    the form fields hold what the user's events left in them (the last text
    typed, if typing came last), and the button is enabled again.  When the
    position or the error of the answer is an object, or an array holding
    one, rendering the new row throws and the component is gone. *)
Theorem events_in_flight_are_kept
  (env : Env) (st : State.t) (res : Response) (data : JSValue)
  (events : list UserEvent) :
  valid_input st ->
  network env = FetchResolves res ->
  body res = JsonResolves data ->
  is_nullish data = false ->
  renders st = true ->
  let record :=
    {| prompt := State.prompt st;
       mentioned := ToBoolean (property data (lit "mentioned"));
       position := nullish_or (property data (lit "position")) VNull;
       error := property data (lit "error") |} in
  let shown :=
    child_ok (property data (lit "position"))
    && child_ok (property data (lit "error")) in
  (exists s0, in_flight env st = Mounted s0
              /\ run_disabled s0 = true
              /\ State.prompt s0 = State.prompt st
              /\ State.brand s0 = State.brand st
              /\ State.results s0 = State.results st)
  /\ (shown = true ->
      exists s', settled env st events = Mounted s'
        /\ State.results s'
           = record :: State.results (fold_left handle events st)
        /\ (In ClickClear events -> State.results s' = [record])
        /\ (events = [] -> State.results s' = record :: State.results st)
        /\ State.prompt s' = State.prompt (fold_left handle events st)
        /\ State.brand s' = State.brand (fold_left handle events st)
        /\ (forall evs v, events = evs ++ [ChangePrompt v] ->
                          State.prompt s' = v)
        /\ (forall evs v, events = evs ++ [ChangeBrand v] ->
                          State.brand s' = v)
        /\ (forall evs, events = evs ++ [ClickReset] ->
                        State.prompt s' = [] /\ State.brand s' = [])
        /\ run_disabled s' = false)
  /\ (shown = false -> settled env st events = Crashed).
Proof.
  intros Hv Hnet Hbody Hnull Hr. cbv zeta.
  unfold settled, in_flight, trace.
  rewrite (run_answered env Hv Hnet Hbody Hnull). cbn [fst].
  rewrite until_fetch_answered. cbn [fst snd].
  destruct (play_sent env st Hr) as [Hplay [He Hl]]. rewrite Hplay.
  set (sent := [SetError (VStr []); SetLoading true; request env st]) in *.
  assert (Hr0 : renders (reduce st sent) = true).
  { apply renders_split. rewrite He. split; [reflexivity | exact Hl]. }
  destruct (events_on_mounted events (reduce st sent) Hr0) as [-> Hr1].
  apply renders_split in Hr1 as [_ Hl1].
  destruct (handle_events_frame events (reduce st sent)) as [He1 _].
  rewrite He in He1.
  rewrite (@play_answer _ (built st data) (ok res)
             (property data (lit "error"))
             (status_message (status res)) He1 Hl1).
  rewrite row_ok_built.
  destruct (handle_events_congr events (reduce st sent) st
              eq_refl eq_refl eq_refl) as [Hp [Hb Hres]].
  destruct (reduce_answer (fold_left handle events (reduce st sent))
              (built st data) (ok res) (property data (lit "error"))
              (status_message (status res))) as [Rp [Rb [Rr Rl]]].
  split; [|split].
  - exists (reduce st sent). repeat split.
  - intros Hs.
    rewrite Hs, (proj2 (proj1 (andb_true_iff _ _) Hs)). cbn [andb].
    eexists. split; [reflexivity|].
    split; [rewrite Rr, Hres; reflexivity|].
    split; [intros Hin; rewrite Rr, Hres, (clear_empties _ st Hin);
            reflexivity|].
    split; [intros ->; rewrite Rr; reflexivity|].
    split; [rewrite Rp, Hp; reflexivity|].
    split; [rewrite Rb, Hb; reflexivity|].
    split; [intros evs v ->; rewrite Rp, fold_left_app; reflexivity|].
    split; [intros evs v ->; rewrite Rb, fold_left_app; reflexivity|].
    split; [intros evs ->; rewrite Rp, Rb, fold_left_app; split; reflexivity|].
    exact Rl.
  - intros Hs. rewrite Hs.
    destruct (child_ok (property data (lit "error"))); reflexivity.
Qed.

Lemma events_in_flight_are_kept_witness :
  let res := {| status := 200;
                body := JsonResolves (VObj [(lit "mentioned", VNum 1)]) |} in
  let st := sample_state (lit "Best running shoes?") (lit "Nike") [older] in
  exists s',
    settled (sample_env (FetchResolves res)) st
      [ClickClear; ChangePrompt (lit "Best phones?")] = Mounted s'
    /\ State.results s'
       = [{| prompt := lit "Best running shoes?"; mentioned := true;
             position := VNull; error := VUndefined |}]
    /\ State.prompt s' = lit "Best phones?".
Proof.
  cbv zeta.
  assert (Hv : valid_input
                 (sample_state (lit "Best running shoes?") (lit "Nike")
                    [older])) by (split; discriminate).
  destruct (@events_in_flight_are_kept
              (sample_env (FetchResolves
                 {| status := 200;
                    body := JsonResolves
                              (VObj [(lit "mentioned", VNum 1)]) |}))
              (sample_state (lit "Best running shoes?") (lit "Nike") [older])
              _ (VObj [(lit "mentioned", VNum 1)])
              [ClickClear; ChangePrompt (lit "Best phones?")]
              Hv eq_refl eq_refl eq_refl eq_refl)
    as [_ [H _]].
  destruct (H eq_refl) as [s' [H1 [_ [H3 [_ [_ [_ [H7 _]]]]]]]].
  exists s'. split; [exact H1|]. split.
  - apply H3. left. reflexivity.
  - apply (H7 [ClickClear]). reflexivity.
Defined.

(** X7.  Reset empties the prompt and the brand fields and leaves the
    ledger, the banner and the busy flag as they are; a Run check right
    after it is stopped as invalid input, without a network call and
    without touching the ledger. *)
Theorem reset_then_run_is_rejected (env : Env) (st : State.t) :
  State.prompt (handle st ClickReset) = []
  /\ State.brand (handle st ClickReset) = []
  /\ State.results (handle st ClickReset) = State.results st
  /\ State.error (handle st ClickReset) = State.error st
  /\ State.loading (handle st ClickReset) = State.loading st
  /\ runCheck env (handle st ClickReset)
     = ([SetError (VStr []); SetError (VStr INVALID_INPUT)], Normal tt)
  /\ existsb is_fetch (trace env (handle st ClickReset)) = false
  /\ State.results (after env (handle st ClickReset)) = State.results st
  /\ State.error (after env (handle st ClickReset)) = VStr INVALID_INPUT
  /\ State.prompt (after env (handle st ClickReset)) = []
  /\ State.brand (after env (handle st ClickReset)) = [].
Proof.
  do 5 (split; [reflexivity|]).
  assert (E : runCheck env (handle st ClickReset)
              = ([SetError (VStr []); SetError (VStr INVALID_INPUT)],
                 Normal tt)) by (apply run_invalid; reflexivity).
  split; [exact E|]. unfold after, trace. rewrite E. repeat split.
Qed.

(** ** Sessions *)

Lemma built_well_formed (st : State.t) (data : JSValue) :
  valid_input st -> well_formed (built st data).
Proof.
  intros [Hp _]. split; [|exact Hp].
  simpl. unfold nullish_or.
  destruct (property data (lit "position")); simpl; discriminate.
Qed.

Lemma session_app (scr : Screen) (steps : list Step) (s : Step) :
  session scr (steps ++ [s]) = advance (session scr steps) s.
Proof. unfold session. rewrite fold_left_app. reflexivity. Qed.

Lemma session_crashed (steps : list Step) : session Crashed steps = Crashed.
Proof. induction steps as [|s steps IH]; [reflexivity | exact IH]. Qed.

(** Rendering after each call, or once after the run: the same outcome. *)
Lemma play_run (env : Env) (st : State.t) :
  renders st = true ->
  play st (trace env st) = show (after env st).
Proof.
  intros Hr. pose proof (proj1 (renders_split st) Hr) as [_ Hl].
  unfold after, trace, show.
  destruct (is_empty (trim (State.prompt st))
            || is_empty (trim (State.brand st))) eqn:G.
  { rewrite (run_invalid env st G). simpl. unfold renders. simpl.
    rewrite Hl. reflexivity. }
  apply valid_of_guard in G.
  destruct (run_cases env G) as [[err E] | [res [data [Hnull E]]]];
    rewrite E; cbn [fst].
  - rewrite after_caught. unfold caught. simpl. unfold renders. simpl.
    rewrite Hl.
    destruct (banner_ok (nullish_or (optional_message env err)
                           (VStr CONNECTION_FAILURE))); reflexivity.
  - change (answered env st res data)
      with ([SetError (VStr []); SetLoading true; request env st]
            ++ snd (until_fetch (answered env st res data))) at 1.
    rewrite play_app.
    destruct (play_sent env st Hr) as [-> [He Hl0]].
    rewrite until_fetch_answered. cbn [snd].
    rewrite (@play_answer _ (built st data) (ok res)
               (property data (lit "error"))
               (status_message (status res)) He Hl0).
    rewrite <- reduce_app_list.
    change ([SetError (VStr []); SetLoading true; request env st]
            ++ _) with (answered env st res data).
    rewrite after_answered. unfold renders.
    cbn [State.error State.results forallb]. rewrite Hl, andb_true_r.
    rewrite row_ok_built.
    destruct (child_ok (property data (lit "position"))); cbn [andb];
      [|rewrite andb_false_r; reflexivity].
    destruct (child_ok (property data (lit "error"))) eqn:Hc; cbn [andb];
      [|rewrite andb_false_r; reflexivity].
    rewrite andb_true_r.
    replace (banner_ok _) with true; [reflexivity|].
    symmetry. apply child_ok_banner.
    destruct (ok res), (ToBoolean (property data (lit "error")));
      rewrite ?child_ok_or_text; auto.
Qed.

Lemma session_step_invariant (s0 s : State.t) (x : Step) :
  Forall well_formed (State.results s0) ->
  renders s0 = true ->
  run_disabled s0 = false ->
  advance (Mounted s0) x = Mounted s ->
  Forall well_formed (State.results s)
  /\ renders s = true
  /\ run_disabled s = false.
Proof.
  intros Hw Hr Hl. destruct x as [env | ev]; simpl.
  - rewrite (@play_run env _ Hr). unfold show.
    destruct (renders (after env s0)) eqn:Hr'; [|discriminate].
    intros H. injection H as <-. split; [|split; [exact Hr'|]].
    + destruct (ledger_after_run env s0) as [-> | [data [_ [Hv ->]]]];
        [exact Hw|].
      constructor; [apply built_well_formed, Hv | exact Hw].
    + unfold run_disabled in *.
      destruct (form_after_run env s0) as [[_ [_ ->]] | [_ [_ ->]]];
        [exact Hl | reflexivity].
  - unfold show. rewrite (handle_renders s0 ev Hr).
    intros H. injection H as <-.
    split; [|split; [apply handle_renders, Hr|]].
    + destruct ev; simpl; try exact Hw. constructor.
    + destruct ev; exact Hl.
Qed.

Lemma session_mounted_invariant (steps : list Step) (s : State.t) :
  session (Mounted initial) steps = Mounted s ->
  Forall well_formed (State.results s)
  /\ renders s = true
  /\ run_disabled s = false.
Proof.
  revert s. induction steps as [|x steps IH] using rev_ind; intros s.
  - simpl. intros H. injection H as <-. repeat split. constructor.
  - rewrite session_app.
    destruct (session (Mounted initial) steps) as [s0|] eqn:E;
      [|discriminate].
    destruct (IH s0 eq_refl) as [Hw [Hr Hl]].
    apply session_step_invariant; assumption.
Qed.

(** X8.  However the component is used from its initial state (checks in
    any environment, typing, Reset, Clear, in any order), as long as it is
    on the screen every ledger entry has a prompt that is not blank and a
    position that is not [undefined], every row and the banner can be
    rendered, and the Run button is enabled between two steps.  A further
    check takes the component off the screen exactly when the state it
    leaves cannot be rendered, and once the component is gone no step
    brings it back. *)
Theorem session_invariant (steps : list Step) :
  (forall s, session (Mounted initial) steps = Mounted s ->
             Forall well_formed (State.results s)
             /\ renders s = true
             /\ run_disabled s = false)
  /\ (forall s env,
        session (Mounted initial) steps = Mounted s ->
        (session (Mounted initial) (steps ++ [Run env]) = Crashed
         <-> renders (after env s) = false)
        /\ (renders (after env s) = true ->
            session (Mounted initial) (steps ++ [Run env])
            = Mounted (after env s)))
  /\ (forall more,
        session (Mounted initial) steps = Crashed ->
        session (Mounted initial) (steps ++ more) = Crashed).
Proof.
  split; [|split].
  - intros s. apply session_mounted_invariant.
  - intros s env E. rewrite session_app, E.
    destruct (@session_mounted_invariant steps _ E) as [_ [Hr _]].
    simpl. rewrite (@play_run env _ Hr). unfold show.
    destruct (renders (after env s)).
    + split; [split; discriminate | reflexivity].
    + split; [split; reflexivity | discriminate].
  - intros more E. unfold session in *. rewrite fold_left_app, E.
    apply session_crashed.
Qed.

Lemma session_invariant_witness :
  let answer := {| status := 200;
                   body := JsonResolves
                             (VObj [(lit "mentioned", VBool true);
                                    (lit "position", VNum 2)]) |} in
  let broken := {| status := 200;
                   body := JsonResolves
                             (VObj [(lit "position", VObj [])]) |} in
  let steps := [User (ChangePrompt (lit "Best running shoes?"));
                User (ChangeBrand (lit "Nike"));
                Run (sample_env (FetchResolves answer))] in
  (exists s, session (Mounted initial) steps = Mounted s
             /\ renders s = true
             /\ run_disabled s = false)
  /\ session (Mounted initial)
       (steps ++ [Run (sample_env (FetchResolves broken))]) = Crashed.
Proof.
  cbv zeta.
  set (steps := [User (ChangePrompt (lit "Best running shoes?"));
                 User (ChangeBrand (lit "Nike"));
                 Run (sample_env (FetchResolves
                   {| status := 200;
                      body := JsonResolves
                                (VObj [(lit "mentioned", VBool true);
                                       (lit "position", VNum 2)]) |}))]).
  assert (E : session (Mounted initial) steps
              = Mounted
                  {| State.prompt := lit "Best running shoes?";
                     State.brand := lit "Nike";
                     State.results :=
                       [{| prompt := lit "Best running shoes?";
                           mentioned := true; position := VNum 2;
                           error := VUndefined |}];
                     State.error := VStr []; State.loading := false |})
    by reflexivity.
  split.
  - eexists. split; [exact E|].
    exact (proj2 (proj1 (session_invariant steps) _ E)).
  - apply (proj1 (proj1 (proj2 (session_invariant steps)) _
             (sample_env (FetchResolves
                {| status := 200;
                   body := JsonResolves
                             (VObj [(lit "position", VObj [])]) |}))
             E)).
    reflexivity.
Defined.

Lemma declared_text_ok (v : JSValue) (s : jsstring) :
  declared_text v = true ->
  banner_ok (nullish_or v (VStr s)) = true /\ child_ok v = true.
Proof.
  destruct v; try discriminate; intros _;
    (split; [apply child_ok_banner|]); reflexivity.
Qed.

Lemma declared_renders (env : Env) (st : State.t) :
  renders st = true ->
  declared env = true ->
  renders (after env st) = true.
Proof.
  intros Hr Hd. pose proof (proj1 (renders_split st) Hr) as [_ Hl].
  unfold after, trace.
  destruct (is_empty (trim (State.prompt st))
            || is_empty (trim (State.brand st))) eqn:G.
  { rewrite (run_invalid env st G). apply renders_split.
    split; [reflexivity | exact Hl]. }
  apply valid_of_guard in G. unfold declared in Hd.
  destruct (network env) as [reason|res] eqn:Hnet.
  { rewrite (run_fetch_rejects env G Hnet). cbn [fst].
    rewrite after_caught. apply renders_split. cbn [State.error State.results].
    split; [apply (declared_text_ok _ _ Hd) | exact Hl]. }
  destruct (body res) as [reason|data] eqn:Hbody.
  { rewrite (run_json_rejects env G Hnet Hbody). cbn [fst].
    rewrite after_caught. apply renders_split. cbn [State.error State.results].
    split; [apply (declared_text_ok _ _ Hd) | exact Hl]. }
  destruct (is_nullish data) eqn:Hnull.
  { rewrite (run_null_body env G Hnet Hbody Hnull). cbn [fst].
    rewrite after_caught. apply renders_split.
    split; [apply child_ok_banner; reflexivity | exact Hl]. }
  rewrite (run_answered env G Hnet Hbody Hnull). cbn [fst].
  rewrite after_answered. apply renders_split.
  cbn [State.error State.results forallb orb] in *.
  apply andb_prop in Hd as [Hp He].
  destruct (declared_text_ok _ (status_message (status res)) He) as [Hb Hc].
  split.
  - destruct (ok res); [|exact Hb].
    destruct (ToBoolean (property data (lit "error")));
      [apply child_ok_banner, Hc | reflexivity].
  - rewrite row_ok_built, Hc, Hl.
    destruct (property data (lit "position")); try discriminate Hp;
      reflexivity.
Qed.

(** X14.  With a backend that answers as the declared types have it (a
    position that is a number or [null], an error that is a string, either
    possibly absent, or the body [null]) and failures whose message, if
    any, is a string, no sequence of checks and user events takes the
    component off the screen. *)
Theorem declared_answers_never_crash (steps : list Step) :
  forallb declared_step steps = true ->
  exists s, session (Mounted initial) steps = Mounted s.
Proof.
  induction steps as [|x steps IH] using rev_ind; intros Hd.
  - exists initial. reflexivity.
  - rewrite forallb_app in Hd. apply andb_prop in Hd as [Hd Hx].
    destruct (IH Hd) as [s0 E]. rewrite session_app, E.
    destruct (@session_mounted_invariant steps _ E) as [_ [Hr _]].
    destruct x as [env | ev]; simpl.
    + rewrite (@play_run env _ Hr). unfold show.
      simpl in Hx. rewrite andb_true_r in Hx.
      rewrite (@declared_renders env _ Hr Hx). eexists. reflexivity.
    + unfold show. rewrite (handle_renders s0 ev Hr). eexists. reflexivity.
Qed.

Lemma declared_answers_never_crash_witness :
  exists s,
    session (Mounted initial)
      [User (ChangePrompt (lit "Best running shoes?"));
       User (ChangeBrand (lit "Nike"));
       Run (sample_env (FetchResolves
              {| status := 500;
                 body := JsonResolves
                           (VObj [(lit "error",
                                   VStr (lit "rate limited"))]) |}));
       Run (sample_env (FetchRejects (Error (lit "Failed to fetch"))));
       User ClickClear] = Mounted s.
Proof.
  apply declared_answers_never_crash. reflexivity.
Defined.

(** ** The export *)

Lemma ToString_array_cons (x : JSValue) (rest : list JSValue) :
  ToString (VArr (x :: rest)) =
    match (if is_nullish x then Normal [] else ToString x) with
    | Abrupt e => Abrupt e
    | Normal sx =>
        match rest with
        | [] => Normal sx
        | _ :: _ =>
            match ToString (VArr rest) with
            | Abrupt e => Abrupt e
            | Normal sr => Normal (sx ++ COMMA :: sr)
            end
        end
    end.
Proof. reflexivity. Qed.

(** The only way [String] fails on a value of parsed JSON. *)
Lemma ToString_abrupt (v : JSValue) (e : Exn) :
  ToString v = Abrupt e -> e = ExnTypeError NotPrimitive.
Proof.
  revert e. induction v as [| |b|n|s|elems IH|props] using JSValue_elems_ind;
    intros e; try discriminate.
  - destruct b; discriminate.
  - induction IH as [|x rest Hx Hrest IHrest]; [discriminate|].
    rewrite ToString_array_cons.
    destruct (is_nullish x).
    + destruct rest; [discriminate|].
      destruct (ToString (VArr (j :: rest))) eqn:E; [discriminate|].
      intros H. injection H as <-. apply IHrest. reflexivity.
    + destruct (ToString x) eqn:Ex.
      * destruct rest; [discriminate|].
        destruct (ToString (VArr (j :: rest))) eqn:E; [discriminate|].
        intros H. injection H as <-. apply IHrest. reflexivity.
      * intros H. injection H as <-. apply Hx. reflexivity.
  - simpl. destruct (own_property props (lit "toString")); [|discriminate].
    intros H. injection H as <-. reflexivity.
Qed.

Lemma row_unprintable (r : Result) :
  printable r = false -> row r = Abrupt (ExnTypeError NotPrimitive).
Proof.
  unfold printable, row. rewrite escapeCSV_string, escapeCSV_bool.
  cbn [and_then].
  destruct (ToString (position r)) as [s|e] eqn:E; [discriminate|].
  intros _. pose proof (ToString_abrupt _ E) as ->.
  unfold escapeCSV.
  destruct (position r); try discriminate E; rewrite E; reflexivity.
Qed.

Lemma map_rows_unprintable (results : list Result) :
  forallb printable results = false ->
  map_rows results = Abrupt (ExnTypeError NotPrimitive).
Proof.
  induction results as [|r rest IH]; intros Hp; [discriminate Hp|].
  simpl in Hp |- *. destruct (printable r) eqn:Hr.
  - destruct (row_shape r Hr) as [e1 [e2 [e3 [-> _]]]]. simpl.
    rewrite (IH Hp). reflexivity.
  - rewrite (row_unprintable r Hr). reflexivity.
Qed.

(** X9.  The export succeeds exactly when [String] can convert every
    position of the ledger, as it can every number and [null]; otherwise
    [downloadCSV] throws a [TypeError] before any file is made. *)
Theorem export_succeeds_iff_printable (results : list Result) :
  (forallb printable results = true <->
   exists text, downloadCSV results = Normal text)
  /\ (forallb printable results = false <->
      downloadCSV results = Abrupt (ExnTypeError NotPrimitive))
  /\ (Forall (fun r => position r = VNull \/ exists n, position r = VNum n)
        results ->
      exists text, downloadCSV results = Normal text).
Proof.
  assert (Hok : forallb printable results = true ->
                exists text, downloadCSV results = Normal text).
  { intros Hp. destruct (map_rows_total results Hp) as [rows [Hrows _]].
    unfold downloadCSV. rewrite Hrows. eexists. reflexivity. }
  assert (Hko : forallb printable results = false ->
                downloadCSV results = Abrupt (ExnTypeError NotPrimitive)).
  { intros Hp. unfold downloadCSV.
    rewrite (map_rows_unprintable results Hp). reflexivity. }
  split; [|split].
  - split; [exact Hok|]. intros [text H].
    destruct (forallb printable results); [reflexivity|].
    rewrite Hko in H by reflexivity. discriminate H.
  - split; [exact Hko|]. intros H.
    destruct (forallb printable results); [|reflexivity].
    destruct Hok as [text Ht]; [reflexivity|]. congruence.
  - intros Hall. apply Hok. apply forallb_forall. intros r Hr.
    rewrite Forall_forall in Hall. apply typed_position_is_printable, Hall, Hr.
Qed.

Lemma export_succeeds_iff_printable_witness :
  downloadCSV
    [older;
     {| prompt := lit "x"; mentioned := false;
        position := VObj [(lit "toString", VNum 1)]; error := VUndefined |}]
  = Abrupt (ExnTypeError NotPrimitive).
Proof.
  apply (proj1 (proj2 (export_succeeds_iff_printable
    [older;
     {| prompt := lit "x"; mentioned := false;
        position := VObj [(lit "toString", VNum 1)];
        error := VUndefined |}]))).
  reflexivity.
Defined.

Lemma row_same_columns (r r' : Result) :
  same_columns r r' -> row r = row r'.
Proof. intros [Hp [Hm Hq]]. unfold row. rewrite Hp, Hm, Hq. reflexivity. Qed.

(** X10.  The export depends on the prompt, the flag and the position of
    each record only: two ledgers that differ in [error] fields alone give
    the same file. *)
Theorem export_ignores_errors (results results' : list Result) :
  Forall2 same_columns results results' ->
  downloadCSV results = downloadCSV results'.
Proof.
  intros Hall. unfold downloadCSV.
  replace (map_rows results') with (map_rows results); [reflexivity|].
  induction Hall as [|r r' rest rest' Hr Hall IH]; [reflexivity|].
  simpl. rewrite (row_same_columns Hr), IH. reflexivity.
Qed.

Lemma export_ignores_errors_witness :
  downloadCSV [older]
  = downloadCSV [{| prompt := lit "Which phone is best?"; mentioned := true;
                    position := VNum 3;
                    error := VStr (lit "rate limited") |}].
Proof.
  apply export_ignores_errors.
  constructor; [repeat split | constructor].
Defined.

Lemma replace_quotes_injective (s t : jsstring) :
  replace_quotes s = replace_quotes t -> s = t.
Proof.
  revert t. induction s as [|c s IH]; intros [|d t]; simpl.
  - reflexivity.
  - destruct (N.eqb d QUOTE); discriminate.
  - destruct (N.eqb c QUOTE); discriminate.
  - destruct (N.eqb c QUOTE) eqn:Ec, (N.eqb d QUOTE) eqn:Ed; intros H.
    + apply N.eqb_eq in Ec, Ed. subst c d.
      injection H as H. f_equal. apply IH, H.
    + injection H as H _. subst d. discriminate Ed.
    + injection H as H _. subst c. discriminate Ec.
    + injection H as H1 H2. subst d. f_equal. apply IH, H2.
Qed.

(** X11.  Escaping loses nothing: two strings with the same escaped field
    are the same string, and the empty field is written for [null] and
    [undefined] only (the empty string is written as two quotes). *)
Theorem escaping_is_injective :
  (forall s t, escapeCSV (VStr s) = escapeCSV (VStr t) -> s = t)
  /\ (forall v, escapeCSV v = Normal [] <-> is_nullish v = true)
  /\ escapeCSV (VStr []) = Normal [QUOTE; QUOTE].
Proof.
  split; [|split].
  - intros s t. rewrite !escapeCSV_string. intros H. injection H as H.
    apply app_inv_tail in H. apply replace_quotes_injective, H.
  - intros v. split.
    + destruct (is_nullish v) eqn:Hn; [reflexivity|].
      destruct (ToString v) as [s|e] eqn:Hs.
      * rewrite (escapeCSV_not_nullish v Hn Hs). discriminate.
      * destruct v; try discriminate Hn; unfold escapeCSV; rewrite Hs;
          discriminate.
    + destruct v; try discriminate; reflexivity.
  - reflexivity.
Qed.

Lemma escaping_is_injective_witness :
  lit "a" = lit "a".
Proof.
  apply (proj1 escaping_is_injective). reflexivity.
Defined.

(** X12.  Whatever the ledger holds, the first line of an export is the
    header [prompt,mentioned,position], and for the empty ledger the export
    is that line alone, ended by a line feed. *)
Theorem export_starts_with_header (results : list Result) (text : jsstring) :
  downloadCSV results = Normal text ->
  (exists more,
     split_on LF text = lit "prompt,mentioned,position" :: more)
  /\ (results = [] -> text = lit "prompt,mentioned,position" ++ [LF]).
Proof.
  unfold downloadCSV. destruct (map_rows results) as [rows|] eqn:Hrows;
    [|discriminate].
  cbn [and_then]. intros H. injection H as <-. split.
  - exists (split_on LF (join [LF] rows)).
    apply (@split_on_app LF (lit "prompt,mentioned,position")
             (join [LF] rows)).
    cbv. intuition discriminate.
  - intros ->. simpl in Hrows. injection Hrows as <-. reflexivity.
Qed.

Lemma export_starts_with_header_witness :
  exists more,
    split_on LF
      (header ++ join [LF] [QUOTE :: lit "a" ++ LF :: lit "b" ++ [QUOTE; COMMA]
                              ++ QUOTE :: lit "true" ++ [QUOTE; COMMA]])
    = lit "prompt,mentioned,position" :: more.
Proof.
  apply (@export_starts_with_header
           [{| prompt := lit "a" ++ LF :: lit "b"; mentioned := true;
               position := VNull; error := VUndefined |}]).
  reflexivity.
Defined.

(** X13.  A record put in front of a non-empty ledger shows up in the
    export as one new row right under the header, the rest of the file
    being what it was. *)
Theorem prepend_adds_first_row
  (r : Result) (results : list Result) (x old : jsstring) :
  results <> [] ->
  row r = Normal x ->
  downloadCSV results = Normal old ->
  exists rows_text,
    old = header ++ rows_text
    /\ downloadCSV (r :: results) = Normal (header ++ x ++ LF :: rows_text).
Proof.
  intros Hne Hx. unfold downloadCSV. simpl map_rows. rewrite Hx.
  destruct (map_rows results) as [rows|] eqn:Hrows; [|discriminate].
  simpl. intros H. injection H as <-.
  exists (join [LF] rows). split; [reflexivity|].
  destruct rows as [|y ys]; [|reflexivity].
  destruct results as [|r0 rest]; [congruence|].
  simpl in Hrows. destruct (row r0); [|discriminate].
  simpl in Hrows. destruct (map_rows rest); discriminate.
Qed.

Lemma prepend_adds_first_row_witness :
  exists rows_text,
    downloadCSV [older; older]
    = Normal (header ++ (QUOTE :: lit "Which phone is best?"
                           ++ [QUOTE; COMMA] ++ QUOTE :: lit "true"
                           ++ [QUOTE; COMMA] ++ QUOTE :: lit "3" ++ [QUOTE])
                ++ LF :: rows_text).
Proof.
  destruct (@prepend_adds_first_row older [older]
              (QUOTE :: lit "Which phone is best?"
                 ++ [QUOTE; COMMA] ++ QUOTE :: lit "true"
                 ++ [QUOTE; COMMA] ++ QUOTE :: lit "3" ++ [QUOTE])
              (header ++ QUOTE :: lit "Which phone is best?"
                 ++ [QUOTE; COMMA] ++ QUOTE :: lit "true"
                 ++ [QUOTE; COMMA] ++ QUOTE :: lit "3" ++ [QUOTE]))
    as [rows_text [_ H]].
  - discriminate.
  - reflexivity.
  - reflexivity.
  - exists rows_text. exact H.
Defined.
